(** * Angular-Material-Autocomplete: the query-dispatch and model engine

  A shallow embedding of [AutocompleteComponent]
  (src/app/autocomplete/autocomplete.component.ts) and the properties of
  its dispatch paths, its request counter and its model bridge. *)

From Stdlib Require Import ZArith Ascii String List Bool Lia.
From stdpp Require Import base option list strings gmap.

Local Open Scope string_scope.
Local Open Scope Z_scope.
Local Open Scope list_scope.

(** ** The JavaScript values the component handles *)

Module Js.

(** A candidate is [any]: a primitive or a reference to an object.
    Objects are compared by reference, so an object value is its address;
    the properties live in the heap. *)
Inductive JsVal : Type :=
| VUndefined
| VNull
| VBool (b : bool)
| VNum (n : Z)
| VNaN
| VStr (s : string)
| VObj (addr : nat)
| VFun (addr : nat).

#[export] Instance JsVal_eq_dec : EqDecision JsVal.
Proof. solve_decision. Defined.

(** [typeof v] *)
Definition typeof (v : JsVal) : string :=
  match v with
  | VUndefined => "undefined"
  | VNull => "object"
  | VBool _ => "boolean"
  | VNum _ | VNaN => "number"
  | VStr _ => "string"
  | VObj _ => "object"
  | VFun _ => "function"
  end.

(** Truthiness, as used by [if (v)], [!v] and [a && b]. *)
Definition truthy (v : JsVal) : bool :=
  match v with
  | VUndefined | VNull | VNaN => false
  | VBool b => b
  | VNum n => negb (n =? 0)
  | VStr s => negb (String.eqb s "")
  | VObj _ | VFun _ => true
  end.

(** [a === b]: same type and same value, references by address,
    [NaN] equal to nothing. *)
Definition strict_eq (a b : JsVal) : bool :=
  match a, b with
  | VNaN, _ | _, VNaN => false
  | _, _ => bool_decide (a = b)
  end.

(** [a !== b] *)
Definition strict_neq (a b : JsVal) : bool := negb (strict_eq a b).

(** Errors the component can raise. *)
Inductive Error : Type :=
| ErrPrefetchNoService   (* "Service for prefetch is not defined in 'Source'" *)
| ErrFetchNoService      (* "Service for fetch is not defined in 'Source'" *)
| ErrNoDisplay           (* "You must provide displayItem or displayItemFn for local search." *)
| ErrDisplayWrong        (* "String to evaluate in displayItem was provided wrong. Better use displayItemFn" *)
| TypeError              (* raised by the runtime: property of null, call of a non-function *)
| ErrEval.               (* whatever else [eval] raises *)

#[export] Instance Error_eq_dec : EqDecision Error.
Proof. solve_decision. Defined.

(** Result of an evaluation that may throw. *)
Inductive outcome (A : Type) : Type :=
| Ret (a : A)
| Throw (e : Error).
Arguments Ret {A} a.
Arguments Throw {A} e.

(** *** Strings *)

(** A string is a sequence of code units; [length] counts them and
    [indexOf] compares them one by one. The functions below look at a
    unit only to compare it with another. *)

(** [t] starts [s]. *)
Fixpoint startsWith (s t : string) {struct t} : bool :=
  match t, s with
  | EmptyString, _ => true
  | String _ _, EmptyString => false
  | String b t', String a s' => if Ascii.eqb a b then startsWith s' t' else false
  end.

(** [s.indexOf(t)] searched from position [i]: the first position where
    [t] occurs, or -1. *)
Fixpoint indexOf_from (i : Z) (s t : string) : Z :=
  if startsWith s t then i
  else match s with
       | EmptyString => -1
       | String _ s' => indexOf_from (i + 1) s' t
       end.

Definition indexOf (s t : string) : Z := indexOf_from 0 s t.

(** [s.length] *)
Definition strlen (s : string) : Z := Z.of_nat (String.length s).

(** *** Objects *)

(** The heap maps an address to the properties of the object there.
    The component never writes to a candidate, so the heap is fixed. *)
Abbreviation Heap := (gmap nat (gmap string JsVal)).

(** [v.p] *)
Definition getProp (h : Heap) (v : JsVal) (p : string) : outcome JsVal :=
  match v with
  | VUndefined | VNull => Throw TypeError
  | VObj a | VFun a =>
      match h !! a with
      | Some o => Ret (default VUndefined (o !! p))
      | None => Ret VUndefined
      end
  | VStr s => Ret VUndefined
  | _ => Ret VUndefined
  end.

End Js.
Export Js.


(** ** The component *)

(** [HttpParams]: an immutable bag of string parameters; [set] returns a
    new bag with the key bound. *)
Abbreviation HttpParams := (gmap string string).

(** The environment the component runs in: the objects of the page, the
    meaning of [eval] on a display expression with [item] in scope, and
    [String.prototype.toLowerCase], the case mapping of the runtime. Display
    expressions are assumed to be free of side effects. Of the case mapping
    (which covers every script, may change the length of a string and
    depends on the context of a letter) nothing is assumed but that it
    leaves the empty string empty. *)
Class JsEnv : Type := {
  heap : Heap;
  js_eval : string -> JsVal -> outcome JsVal;
  toLowerCase : string -> string;
  toLowerCase_empty : toLowerCase "" = ""
}.

(** The [@Input()] configuration of the component. *)
Record Inputs : Type := {
  doPrefetch : bool;
  displayItem : option string;            (* undefined until bound *)
  minChars : Z;
  clearAfterSearch : bool;
  serviceParams : option HttpParams;
  displayItemFn : option (JsVal -> string);
  filterCallback : list JsVal -> option (list JsVal)   (* None: null or undefined *)
}.

(** The default configuration of a fresh component. *)
Definition default_inputs : Inputs := {|
  doPrefetch := false;
  displayItem := None;
  minChars := 2;
  clearAfterSearch := false;
  serviceParams := None;
  displayItemFn := None;
  filterCallback := fun x => Some x
|}.

(** The mutable fields of the component, with the text of the input element
    ([autocompleteInput.nativeElement.value]) and the two members inherited
    from [AbstractValueAccessor]. *)
Record Fields : Type := {
  currentModel : JsVal;
  query : string;
  autocompleteList : option (list JsVal);   (* None: undefined or null *)
  noSuggestions : option bool;              (* None: undefined *)
  requestsInQueue : Z;
  storedItems : option (list JsVal);
  service : option nat;                     (* the service object, by reference *)
  returnType : option string;               (* None: undefined *)
  value : JsVal;
  formControlItem : bool;                   (* is a form control bound? *)
  inputText : string
}.

Definition set_currentModel (v : JsVal) (c : Fields) : Fields :=
  {| currentModel := v; query := query c; autocompleteList := autocompleteList c;
     noSuggestions := noSuggestions c; requestsInQueue := requestsInQueue c;
     storedItems := storedItems c; service := service c; returnType := returnType c;
     value := value c; formControlItem := formControlItem c; inputText := inputText c |}.

Definition set_query (q : string) (c : Fields) : Fields :=
  {| currentModel := currentModel c; query := q; autocompleteList := autocompleteList c;
     noSuggestions := noSuggestions c; requestsInQueue := requestsInQueue c;
     storedItems := storedItems c; service := service c; returnType := returnType c;
     value := value c; formControlItem := formControlItem c; inputText := inputText c |}.

Definition set_autocompleteList (l : option (list JsVal)) (c : Fields) : Fields :=
  {| currentModel := currentModel c; query := query c; autocompleteList := l;
     noSuggestions := noSuggestions c; requestsInQueue := requestsInQueue c;
     storedItems := storedItems c; service := service c; returnType := returnType c;
     value := value c; formControlItem := formControlItem c; inputText := inputText c |}.

Definition set_noSuggestions (b : option bool) (c : Fields) : Fields :=
  {| currentModel := currentModel c; query := query c; autocompleteList := autocompleteList c;
     noSuggestions := b; requestsInQueue := requestsInQueue c;
     storedItems := storedItems c; service := service c; returnType := returnType c;
     value := value c; formControlItem := formControlItem c; inputText := inputText c |}.

Definition set_requestsInQueue (n : Z) (c : Fields) : Fields :=
  {| currentModel := currentModel c; query := query c; autocompleteList := autocompleteList c;
     noSuggestions := noSuggestions c; requestsInQueue := n;
     storedItems := storedItems c; service := service c; returnType := returnType c;
     value := value c; formControlItem := formControlItem c; inputText := inputText c |}.

Definition set_storedItems (l : option (list JsVal)) (c : Fields) : Fields :=
  {| currentModel := currentModel c; query := query c; autocompleteList := autocompleteList c;
     noSuggestions := noSuggestions c; requestsInQueue := requestsInQueue c;
     storedItems := l; service := service c; returnType := returnType c;
     value := value c; formControlItem := formControlItem c; inputText := inputText c |}.

Definition set_service (s : option nat) (c : Fields) : Fields :=
  {| currentModel := currentModel c; query := query c; autocompleteList := autocompleteList c;
     noSuggestions := noSuggestions c; requestsInQueue := requestsInQueue c;
     storedItems := storedItems c; service := s; returnType := returnType c;
     value := value c; formControlItem := formControlItem c; inputText := inputText c |}.

Definition set_returnType (t : option string) (c : Fields) : Fields :=
  {| currentModel := currentModel c; query := query c; autocompleteList := autocompleteList c;
     noSuggestions := noSuggestions c; requestsInQueue := requestsInQueue c;
     storedItems := storedItems c; service := service c; returnType := t;
     value := value c; formControlItem := formControlItem c; inputText := inputText c |}.

Definition set_value_field (v : JsVal) (c : Fields) : Fields :=
  {| currentModel := currentModel c; query := query c; autocompleteList := autocompleteList c;
     noSuggestions := noSuggestions c; requestsInQueue := requestsInQueue c;
     storedItems := storedItems c; service := service c; returnType := returnType c;
     value := v; formControlItem := formControlItem c; inputText := inputText c |}.

Definition set_formControlItem (b : bool) (c : Fields) : Fields :=
  {| currentModel := currentModel c; query := query c; autocompleteList := autocompleteList c;
     noSuggestions := noSuggestions c; requestsInQueue := requestsInQueue c;
     storedItems := storedItems c; service := service c; returnType := returnType c;
     value := value c; formControlItem := b; inputText := inputText c |}.

Definition set_inputText (s : string) (c : Fields) : Fields :=
  {| currentModel := currentModel c; query := query c; autocompleteList := autocompleteList c;
     noSuggestions := noSuggestions c; requestsInQueue := requestsInQueue c;
     storedItems := storedItems c; service := service c; returnType := returnType c;
     value := value c; formControlItem := formControlItem c; inputText := s |}.

(** Which [then] callback a pending promise carries. *)
Inductive Continuation : Type := KPrefetch | KFetch.

#[export] Instance Continuation_eq_dec : EqDecision Continuation.
Proof. solve_decision. Defined.

(** A promise returned by [service.fetch(params)] that has not settled. *)
Record Request : Type := {
  ticket : nat;
  kont : Continuation;
  target : nat;            (* the service that was called *)
  params : HttpParams
}.

(** What the component sends out: its [@Output()] emitters and the calls
    into the form binding. *)
Inductive Emission : Type :=
| ModelChange (v : JsVal)
| OptionSelected (v : JsVal)
| ValueChange (v : JsVal)
| FormReset.

(** The component together with the promises in flight and the
    notifications sent so far. *)
Record World : Type := {
  cfg : Inputs;
  st : Fields;
  pending : list Request;
  nextTicket : nat;
  emitted : list Emission
}.

Definition with_st (f : Fields -> Fields) (w : World) : World :=
  {| cfg := cfg w; st := f (st w); pending := pending w;
     nextTicket := nextTicket w; emitted := emitted w |}.

Definition with_cfg (i : Inputs) (w : World) : World :=
  {| cfg := i; st := st w; pending := pending w;
     nextTicket := nextTicket w; emitted := emitted w |}.

Definition with_pending (p : list Request) (w : World) : World :=
  {| cfg := cfg w; st := st w; pending := p;
     nextTicket := nextTicket w; emitted := emitted w |}.

Definition with_emitted (l : list Emission) (w : World) : World :=
  {| cfg := cfg w; st := st w; pending := pending w;
     nextTicket := nextTicket w; emitted := l |}.

(** The state of a component that was just constructed. *)
Definition init_fields : Fields := {|
  currentModel := VUndefined;
  query := "";
  autocompleteList := None;
  noSuggestions := None;
  requestsInQueue := 0;
  storedItems := None;
  service := None;
  returnType := None;
  value := VStr "";
  formControlItem := false;
  inputText := ""
|}.

Definition init (i : Inputs) : World :=
  {| cfg := i; st := init_fields; pending := []; nextTicket := 0%nat; emitted := [] |}.

(** *** Methods run in a state-and-exception monad: a [throw] keeps the
    assignments made before it, as in the source. *)
Definition M (A : Type) : Type := World -> outcome A * World.

Definition ret {A} (a : A) : M A := fun w => (Ret a, w).

Definition throw {A} (e : Error) : M A := fun w => (Throw e, w).

Definition bind {A B} (m : M A) (f : A -> M B) : M B :=
  fun w => match m w with
           | (Ret a, w') => f a w'
           | (Throw e, w') => (Throw e, w')
           end.

Definition lift {A} (o : outcome A) : M A := fun w => (o, w).

Definition gets {A} (f : Fields -> A) : M A := fun w => (Ret (f (st w)), w).

Definition input {A} (f : Inputs -> A) : M A := fun w => (Ret (f (cfg w)), w).

Definition modify (f : Fields -> Fields) : M unit := fun w => (Ret tt, with_st f w).

Notation "'do' x <- m ; k" := (bind m (fun x => k))
  (at level 10, x name, m at level 100, k at level 200).
Notation "'exec' m ; k" := (bind m (fun _ => k))
  (at level 10, m at level 100, k at level 200).

(** [emitter.emit(v)] and the calls into the form binding. *)
Definition emit (e : Emission) : M unit :=
  fun w => (Ret tt, with_emitted (emitted w ++ [e]) w).

(** [service.fetch(params).then(k)]: a new promise is in flight. *)
Definition dispatch (svc : nat) (p : HttpParams) (k : Continuation) : M unit :=
  fun w => (Ret tt,
            {| cfg := cfg w; st := st w;
               pending := pending w ++ [{| ticket := nextTicket w; kont := k;
                                           target := svc; params := p |}];
               nextTicket := S (nextTicket w); emitted := emitted w |}).

Section Methods.
Context `{JsEnv}.

(** [saveReturnType(items)] *)
Definition saveReturnType (items : option (list JsVal)) : M unit :=
  match items with
  | Some (x :: _) => modify (set_returnType (Some (typeof x)))
  | _ => ret tt
  end.

(** What can be bound to [source]: a service or an array. *)
Inductive SourceInput : Type :=
| SrcService (svc : nat)
| SrcArray (items : list JsVal).

(** [set source(value)] *)
Definition set_source (v : SourceInput) : M unit :=
  match v with
  | SrcService s => modify (set_service (Some s))
  | SrcArray items =>
      exec modify (set_storedItems (Some items));
      do stored <- gets storedItems;
      saveReturnType stored
  end.

(** [this.returnType === typeof value] *)
Definition returnType_is (rt : option string) (v : JsVal) : bool :=
  match rt with
  | Some t => String.eqb t (typeof v)
  | None => false
  end.

(** [set model(value)] *)
Definition set_model (v : JsVal) : M unit :=
  do cur <- gets currentModel;
  if strict_neq v cur then
    exec modify (set_currentModel v);
    do rt <- gets returnType;
    if strict_eq v VNull || returnType_is rt v
    then emit (ModelChange v)
    else ret tt
  else ret tt.

(** Modelled from the spec: the [value] property inherited from
    [AbstractValueAccessor], whose source is not part of the repository
    files at hand. The form-binding protocol of the spec says that the value
    can be set and that the control notifies of changes: the setter stores
    the value and notifies the form binding. *)
Definition set_value (v : JsVal) : M unit :=
  exec modify (set_value_field v);
  emit (ValueChange v).

(** [prefetch()] *)
Definition prefetch : M unit :=
  do svc <- gets service;
  match svc with
  | None => throw ErrPrefetchNoService
  | Some s =>
      exec modify (set_storedItems (Some []));
      exec modify (set_noSuggestions (Some false));
      do sp <- input serviceParams;
      let params := match sp with Some p => p | None => ∅ end in
      dispatch s params KPrefetch
  end.

(** The [then] callback of [prefetch]. *)
Definition prefetch_then (result : list JsVal) : M unit :=
  do fc <- input filterCallback;
  exec modify (set_storedItems (fc result));
  exec modify (set_noSuggestions (Some (Nat.eqb (length result) 0)));
  do stored <- gets storedItems;
  saveReturnType stored.

(** [isQueryEmpty(query)] *)
Definition isQueryEmpty (q : string) : bool := strlen q <=? 0.

(** [fetch(force)]; an omitted [force] is [false]. *)
Definition fetch (force : bool) : M unit :=
  do svc <- gets service;
  match svc with
  | None => throw ErrFetchNoService
  | Some s =>
      do txt <- gets inputText;
      exec modify (set_query txt);
      do q <- gets query;
      if isQueryEmpty q then modify (set_autocompleteList (Some []))
      else
        do mc <- input minChars;
        if force || (strlen q >=? mc) then
          do sp <- input serviceParams;
          let params := match sp with
                        | Some p => <["query" := q]> p
                        | None => <["query" := q]> ∅
                        end in
          exec modify (set_noSuggestions (Some false));
          exec modify (fun c => set_requestsInQueue (requestsInQueue c + 1) c);
          dispatch s params KFetch
        else ret tt
  end.

(** The [then] callback of [fetch]. *)
Definition fetch_then (result : list JsVal) : M unit :=
  exec modify (fun c => set_requestsInQueue (requestsInQueue c - 1) c);
  do fc <- input filterCallback;
  exec modify (set_autocompleteList (fc result));
  exec modify (set_noSuggestions (Some (Nat.eqb (length result) 0)));
  do l <- gets autocompleteList;
  saveReturnType l.

(** Truthiness of the [displayItem] string. *)
Definition displayItem_set (d : option string) : bool :=
  match d with
  | Some s => truthy (VStr s)
  | None => false
  end.

(** [viewItem(item)] *)
Definition viewItem (item : JsVal) : M JsVal :=
  do fn <- input displayItemFn;
  match fn with
  | Some f => ret (VStr (f item))
  | None =>
      do d <- input displayItem;
      match d with
      | Some e => if truthy (VStr e) then lift (js_eval e item)
                  else lift (getProp heap item "name")
      | None => lift (getProp heap item "name")
      end
  end.

(** [v.toLowerCase()]: only strings have the method. *)
Definition lower_of (v : JsVal) : M string :=
  match v with
  | VStr s => ret (toLowerCase s)
  | _ => throw TypeError
  end.

(** The predicate [filterStoredItems] passes to [Array.prototype.filter]. *)
Definition keepItem (item : JsVal) : M bool :=
  do v <- viewItem item;
  if negb (truthy v) then throw ErrDisplayWrong
  else
    do v' <- viewItem item;
    do formatedItem <- lower_of v';
    do fn <- input displayItemFn;
    let formatedItem := match fn with
                        | Some f => toLowerCase (f item)
                        | None => formatedItem
                        end in
    do q <- gets query;
    ret (indexOf formatedItem (toLowerCase q) >? -1).

(** [items.filter(p)] for a predicate that may throw: elements are visited
    in order and the first exception ends the traversal. *)
Fixpoint filterM {A} (p : A -> M bool) (items : list A) : M (list A) :=
  match items with
  | [] => ret []
  | x :: rest =>
      do b <- p x;
      do kept <- filterM p rest;
      ret (if b then x :: kept else kept)
  end.

(** [filterStoredItems()] *)
Definition filterStoredItems : M unit :=
  do d <- input displayItem;
  do fn <- input displayItemFn;
  if negb (displayItem_set d) && negb (bool_decide (is_Some fn)) then throw ErrNoDisplay
  else
    do txt <- gets inputText;
    exec modify (set_query txt);
    do q <- gets query;
    do mc <- input minChars;
    if strlen q <? mc then ret tt
    else
      do stored <- gets storedItems;
      match stored with
      | Some items =>
          do kept <- filterM keepItem items;
          exec modify (set_autocompleteList (Some kept));
          do q <- gets query;
          modify (set_noSuggestions
                    (Some ((strlen q >? 0) && Nat.eqb (length kept) 0)))
      | None =>
          exec modify (set_autocompleteList (Some []));
          modify (set_noSuggestions (Some false))
      end.

(** Modelled from the spec: [formControlItem.reset()], which runs the reset
    capability of the form binding; the base class that implements it is
    not part of the repository files at hand. By the spec the reset clears
    both the internal value and the visible text. It is not a change made
    by the user, so nothing is notified beyond the call itself. *)
Definition reset_formControl : M unit :=
  exec emit FormReset;
  exec modify (set_value_field (VStr ""));
  modify (set_inputText "").

(** [clearValue()] *)
Definition clearValue : M unit :=
  do fc <- gets formControlItem;
  exec (if fc then reset_formControl else ret tt);
  exec set_model VNull;
  set_value (VStr "").

(** [autocompleteSelected($event)], with [selected = $event.option.value]. *)
Definition autocompleteSelected (selected : JsVal) : M unit :=
  do txt <- gets inputText;
  exec modify (set_query txt);
  exec set_value selected;
  exec set_model selected;
  exec (if truthy selected then emit (OptionSelected selected) else ret tt);
  do cas <- input clearAfterSearch;
  if cas then clearValue else ret tt.

(** [get doSearchViaService()]: [this.service && !this.doPrefetch] *)
Definition doSearchViaService (w : World) : bool :=
  bool_decide (is_Some (service (st w))) && negb (doPrefetch (cfg w)).

(** [onKeyCallback()] *)
Definition onKeyCallback : M unit :=
  fun w => if doSearchViaService w then fetch false w else filterStoredItems w.

(** [onKey($event)], with [keyCode = $event.keyCode]. *)
Definition onKey (keyCode : Z) : M unit :=
  if (keyCode <? 37) || (keyCode >? 40) then
    do txt <- gets inputText;
    exec (if String.eqb txt "" then clearValue else ret tt);
    onKeyCallback
  else ret tt.

(** [onFocus($event)] *)
Definition onFocus : M unit :=
  fun w => if doSearchViaService w then fetch false w else filterStoredItems w.

(** [ngOnInit()] *)
Definition ngOnInit : M unit :=
  do p <- input doPrefetch;
  if p then prefetch else ret tt.

End Methods.

(** ** The event loop *)

(** What can happen to a component: the host binds inputs, the user edits
    the input element, a handler or public method is called, a promise
    settles. [onBlur] and [onCreateNew] write nothing but the text of the
    input element, which [EInputText] covers. *)
Inductive Event : Type :=
| EConfigure (i : Inputs)
| ESetSource (v : SourceInput)
| EBindFormControl (b : bool)
| EInputText (s : string)
| ESetModel (v : JsVal)
| ENgOnInit
| EPrefetch
| EFetch (force : bool)
| EFilterStoredItems
| ESelected (v : JsVal)
| EOnKey (keyCode : Z)
| EOnKeyCallback
| EOnFocus
| EClearValue
| EResolve (t : nat) (result : list JsVal)
| EReject (t : nat).

(** The pending promise with a given ticket. *)
Definition find_request (t : nat) (p : list Request) : option Request :=
  List.find (fun r => Nat.eqb (ticket r) t) p.

Definition remove_request (t : nat) (p : list Request) : list Request :=
  List.filter (fun r => negb (Nat.eqb (ticket r) t)) p.

Section Loop.
Context `{JsEnv}.

(** A promise that resolves runs its callback; one that settles twice or
    was never made does nothing. *)
Definition resolve (t : nat) (result : list JsVal) : M unit :=
  fun w =>
    match find_request t (pending w) with
    | None => (Ret tt, w)
    | Some r =>
        let w' := with_pending (remove_request t (pending w)) w in
        match kont r with
        | KPrefetch => prefetch_then result w'
        | KFetch => fetch_then result w'
        end
    end.

(** The source attaches no rejection handler: a rejected promise is dropped
    and no callback runs. *)
Definition reject (t : nat) : M unit :=
  fun w => (Ret tt, with_pending (remove_request t (pending w)) w).

Definition handle (e : Event) : M unit :=
  match e with
  | EConfigure i => fun w => (Ret tt, with_cfg i w)
  | ESetSource v => set_source v
  | EBindFormControl b => modify (set_formControlItem b)
  | EInputText s => modify (set_inputText s)
  | ESetModel v => set_model v
  | ENgOnInit => ngOnInit
  | EPrefetch => prefetch
  | EFetch force => fetch force
  | EFilterStoredItems => filterStoredItems
  | ESelected v => autocompleteSelected v
  | EOnKey k => onKey k
  | EOnKeyCallback => onKeyCallback
  | EOnFocus => onFocus
  | EClearValue => clearValue
  | EResolve t result => resolve t result
  | EReject t => reject t
  end.

(** One turn of the event loop; an exception ends the handler and leaves
    the component as it was when it was thrown. *)
Definition step (w : World) (e : Event) : World := snd (handle e w).

Definition run (w : World) (tr : list Event) : World := fold_left step tr w.

End Loop.

(** ** A concrete page *)

(** Property paths: the display expressions of the component's
    documentation, [item] and [item.p]. Anything else is not evaluated. *)
Definition eval_path (h : Heap) (e : string) (item : JsVal) : outcome JsVal :=
  if String.eqb e "item" then Ret item
  else if startsWith e "item." then getProp h item (String.substring 5 (String.length e - 5) e)
  else Throw ErrEval.

(** Three fruit objects and one object whose name is empty. *)
Definition fruit_heap : Heap :=
  {[ 1%nat := {[ "name" := VStr "Apple" ]};
     2%nat := {[ "name" := VStr "Apricot" ]};
     3%nat := {[ "name" := VStr "Banana" ]};
     4%nat := {[ "name" := VStr "" ]} ]}.

(** The case mapping on plain letters: A to Z are lowered and every other
    code unit is kept. *)
Definition lower_ascii (c : ascii) : ascii :=
  let n := nat_of_ascii c in
  if ((65 <=? n) && (n <=? 90))%nat then ascii_of_nat (n + 32) else c.

Fixpoint lower_letters (s : string) : string :=
  match s with
  | EmptyString => EmptyString
  | String c s' => String (lower_ascii c) (lower_letters s')
  end.

Definition fruit_env : JsEnv :=
  {| heap := fruit_heap; js_eval := eval_path fruit_heap;
     toLowerCase := lower_letters; toLowerCase_empty := eq_refl |}.

Definition fruits : list JsVal := [VObj 1; VObj 2; VObj 3].

Definition fruit_inputs : Inputs := {|
  doPrefetch := false;
  displayItem := Some "item.name";
  minChars := 2;
  clearAfterSearch := false;
  serviceParams := None;
  displayItemFn := None;
  filterCallback := fun x => Some x
|}.

(** A list of numbers: a candidate can be [0]. *)
Definition digits : list JsVal := [VNum 0; VNum 1; VNum 2].

(** ** Vocabulary of the properties *)

(** *** Requests in flight *)

Definition is_fetch (r : Request) : bool := bool_decide (kont r = KFetch).

(** The promises of [fetch] that have not settled. *)
Definition fetches_in_flight (w : World) : nat :=
  length (List.filter is_fetch (pending w)).

(** The gating check of [fetch]: a service, a query that is not empty, and
    a forced call or a query of at least [minChars] characters. *)
Definition passes_gate (force : bool) (w : World) : bool :=
  bool_decide (is_Some (service (st w)))
  && negb (isQueryEmpty (inputText (st w)))
  && (force || (strlen (inputText (st w)) >=? minChars (cfg w))).

(** What a handler can do to the requests in flight and their counter:
    nothing, or one call of the service from [prefetch], or one from
    [fetch], which sends a query that is not empty. *)
Inductive Traffic (w w' : World) : Prop :=
| traffic_quiet :
    pending w' = pending w ->
    nextTicket w' = nextTicket w ->
    requestsInQueue (st w') = requestsInQueue (st w) ->
    Traffic w w'
| traffic_prefetch s p :
    pending w' = pending w ++ [{| ticket := nextTicket w; kont := KPrefetch;
                                  target := s; params := p |}] ->
    nextTicket w' = S (nextTicket w) ->
    requestsInQueue (st w') = requestsInQueue (st w) ->
    Traffic w w'
| traffic_fetch s p q :
    pending w' = pending w ++ [{| ticket := nextTicket w; kont := KFetch;
                                  target := s; params := p |}] ->
    nextTicket w' = S (nextTicket w) ->
    requestsInQueue (st w') = requestsInQueue (st w) + 1 ->
    p !! "query" = Some q ->
    q <> "" ->
    Traffic w w'.

(** Tickets are handed out once and in increasing order. *)
Definition Tickets (w : World) : Prop :=
  Forall (fun r => (ticket r < nextTicket w)%nat) (pending w)
  /\ NoDup (map ticket (pending w)).

(** Every [fetch] in flight carries a query that is not empty. *)
Definition FetchQueries (w : World) : Prop :=
  Forall (fun r => kont r = KFetch ->
                   exists q, params r !! "query" = Some q /\ q <> "") (pending w).

Section Counting.
Context `{JsEnv}.

(** The requests made during one turn: those with a ticket that had not
    been handed out before. *)
Definition issued (w : World) (e : Event) : list Request :=
  List.filter (fun r => (nextTicket w <=? ticket r)%nat) (pending (step w e)).

(** How many [fetch] requests the turn dispatched. *)
Definition dispatches_fetch (w : World) (e : Event) : nat :=
  length (List.filter is_fetch (issued w e)).

(** Does the turn complete (resolve) a [fetch] request in flight? *)
Definition resolves_fetch (w : World) (e : Event) : bool :=
  match e with
  | EResolve t _ =>
      match find_request t (pending w) with
      | Some r => is_fetch r
      | None => false
      end
  | _ => false
  end.

(** Does the turn reject a [fetch] request in flight? *)
Definition rejects_fetch (w : World) (e : Event) : bool :=
  match e with
  | EReject t =>
      match find_request t (pending w) with
      | Some r => is_fetch r
      | None => false
      end
  | _ => false
  end.

(** Counting along a run. *)
Fixpoint total (f : World -> Event -> nat) (w : World) (tr : list Event) : nat :=
  match tr with
  | [] => 0%nat
  | e :: tr' => (f w e + total f (step w e) tr')%nat
  end.

Definition dispatched : World -> list Event -> nat := total dispatches_fetch.

Definition resolved : World -> list Event -> nat :=
  total (fun w e => Nat.b2n (resolves_fetch w e)).

Definition rejected : World -> list Event -> nat :=
  total (fun w e => Nat.b2n (rejects_fetch w e)).

End Counting.

(** *** Containment without regard to case *)

Section Containment.
Context `{JsEnv}.

(** [d] contains [q] case-insensitively: once both are brought to lower
    case by the case mapping of the runtime, [q] occurs in [d]. *)
Definition contains_ci (d q : string) : Prop :=
  exists pre post, toLowerCase d = (pre ++ toLowerCase q ++ post)%string.

End Containment.

(** [kept] is exactly the subsequence of [items], in the original order,
    of the elements that satisfy [P]. *)
Inductive selects {A} (P : A -> Prop) : list A -> list A -> Prop :=
| selects_nil : selects P [] []
| selects_keep x items kept :
    P x -> selects P items kept -> selects P (x :: items) (x :: kept)
| selects_drop x items kept :
    ~ P x -> selects P items kept -> selects P (x :: items) kept.

Section Display.
Context `{JsEnv}.

(** The display string [viewItem] resolves for a candidate. *)
Definition resolves (w : World) (item : JsVal) (d : string) : Prop :=
  fst (viewItem item w) = Ret (VStr d).

(** The candidate's display string contains the query. *)
Definition matches (w : World) (q : string) (item : JsVal) : Prop :=
  exists d, resolves w item d /\ contains_ci d q.

(** A display strategy is configured. *)
Definition display_configured (w : World) : Prop :=
  displayItem_set (displayItem (cfg w)) = true \/ is_Some (displayItemFn (cfg w)).

(** How [filterStoredItems] can end. *)
Inductive FilterRun (w : World) : outcome unit * World -> Prop :=
| filter_unconfigured :
    ~ display_configured w ->
    FilterRun w (Throw ErrNoDisplay, w)
| filter_short :
    strlen (inputText (st w)) < minChars (cfg w) ->
    FilterRun w (Ret tt, with_st (set_query (inputText (st w))) w)
| filter_thrown e :
    minChars (cfg w) <= strlen (inputText (st w)) ->
    FilterRun w (Throw e, with_st (set_query (inputText (st w))) w)
| filter_done kept n :
    minChars (cfg w) <= strlen (inputText (st w)) ->
    (n = true -> inputText (st w) <> "" /\ kept = []) ->
    FilterRun w
      (Ret tt,
       with_st (fun c => set_noSuggestions (Some n)
                           (set_autocompleteList (Some kept)
                              (set_query (inputText (st w)) c))) w).

End Display.

(** *** Completed searches *)

(** A search that ran to completion: a prefetch or a fetch whose promise
    resolved, with the number of raw results, or a local filtering that
    passed the length check and returned, with the number of candidates
    kept. A fetch carries the query it sent. *)
Inductive Completed : Type :=
| DonePrefetch (raw : nat)
| DoneFetch (q : option string) (raw : nat)
| DoneFilter (q : string) (kept : nat).

Section History.
Context `{JsEnv}.

(** The turn calls [filterStoredItems]. *)
Definition local_call (w : World) (e : Event) : bool :=
  match e with
  | EFilterStoredItems => true
  | EOnKeyCallback | EOnFocus => negb (doSearchViaService w)
  | EOnKey k => ((k <? 37) || (k >? 40)) && negb (doSearchViaService w)
  | _ => false
  end.

(** The handler returned without an exception. *)
Definition returned (w : World) (e : Event) : bool :=
  match fst (handle e w) with
  | Ret _ => true
  | Throw _ => false
  end.

(** The search the turn completes, if any. *)
Definition completes (w : World) (e : Event) : option Completed :=
  match e with
  | EResolve t result =>
      match find_request t (pending w) with
      | Some r =>
          Some (match kont r with
                | KPrefetch => DonePrefetch (length result)
                | KFetch => DoneFetch (params r !! "query") (length result)
                end)
      | None => None
      end
  | _ =>
      if local_call w e && returned w e
         && (minChars (cfg w) <=? strlen (inputText (st w)))
      then Some (DoneFilter (inputText (st w))
                   (length (default [] (autocompleteList (st (step w e))))))
      else None
  end.

(** The most recently completed search of a run, [acc] being the one
    before the run. *)
Fixpoint last_completed (acc : option Completed) (w : World) (tr : list Event)
  : option Completed :=
  match tr with
  | [] => acc
  | e :: tr' =>
      last_completed (match completes w e with Some c => Some c | None => acc end)
        (step w e) tr'
  end.

(** The candidate list the turn obtains, if any: the array bound to
    [source], or the transformed result of a resolved prefetch or fetch. *)
Definition obtained (w : World) (e : Event) : option (list JsVal) :=
  match e with
  | ESetSource (SrcArray items) => Some items
  | EResolve t result =>
      match find_request t (pending w) with
      | Some _ => filterCallback (cfg w) result
      | None => None
      end
  | _ => None
  end.

(** The candidate lists obtained along a run, oldest first. *)
Fixpoint lists_obtained (w : World) (tr : list Event) : list (list JsVal) :=
  match tr with
  | [] => []
  | e :: tr' =>
      match obtained w e with
      | Some l => l :: lists_obtained (step w e) tr'
      | None => lists_obtained (step w e) tr'
      end
  end.

End History.

(** A fetch or a filtering that returned nothing for a query that is not
    empty. *)
Definition empty_for_query (c : Completed) : Prop :=
  match c with
  | DoneFetch (Some q) 0 => q <> ""
  | DoneFilter q 0 => q <> ""
  | _ => False
  end.

(** The kinds of the non-empty lists among [ls]: the runtime type of the
    first element of each. *)
Definition kinds (ls : list (list JsVal)) : list string :=
  omap (fun l => typeof <$> head l) ls.

(** ** Sample worlds *)

(** The fruit collection is bound and the user has typed "Ap". *)
Definition world_fruits : World :=
  @run fruit_env (init fruit_inputs) [ESetSource (SrcArray fruits); EInputText "Ap"].

(** A collection with a candidate whose name is the empty string. *)
Definition world_blank_name : World :=
  @run fruit_env (init fruit_inputs)
    [ESetSource (SrcArray [VObj 1; VObj 4]); EInputText "ap"].

(** The list of numbers is bound. *)
Definition world_digits : World :=
  @run fruit_env (init default_inputs) [ESetSource (SrcArray digits)].

(** A short query in a component that has both a service and a local
    collection. *)
Definition world_short : World :=
  @run fruit_env (init fruit_inputs)
    [ESetSource (SrcArray fruits); ESetSource (SrcService 7); EInputText "A"].

(** A component that prefetches when it is initialised. *)
Definition prefetch_inputs : Inputs := {|
  doPrefetch := true;
  displayItem := Some "item.name";
  minChars := 2;
  clearAfterSearch := false;
  serviceParams := None;
  displayItemFn := None;
  filterCallback := fun x => Some x
|}.

Definition world_prefetching : World :=
  @run fruit_env (init prefetch_inputs) [ESetSource (SrcService 7); ENgOnInit].

(** The service answers the query "xyz" with no result. *)
Definition trace_empty_fetch : list Event :=
  [ESetSource (SrcService 7); EInputText "xyz"; EOnKey 90; EResolve 0 []].

(** The service answers the prefetch with no result. *)
Definition trace_empty_prefetch : list Event :=
  [ESetSource (SrcService 7); ENgOnInit; EResolve 0 []].

(** A list of strings is bound, then a list of objects. *)
Definition trace_two_sources : list Event :=
  [ESetSource (SrcArray [VStr "a"]); ESetSource (SrcArray [VObj 1])].

(** Two fetches overlap and the older one resolves last. *)
Definition one_char_inputs : Inputs := {|
  doPrefetch := false;
  displayItem := Some "item.name";
  minChars := 1;
  clearAfterSearch := false;
  serviceParams := None;
  displayItemFn := None;
  filterCallback := fun x => Some x
|}.

Definition trace_overlap : list Event :=
  [ESetSource (SrcService 7);
   EInputText "a"; EOnKey 65;
   EInputText "ab"; EOnKey 66;
   EResolve 1 [VObj 3];
   EResolve 0 [VObj 1; VObj 2]].

(** ** Methods beside the dispatch paths *)

(** [get model()] *)
Definition get_model (w : World) : JsVal := currentModel (st w).

(** The text an input element holds after [input.value = v]: a string is
    taken as it is, [null] gives the empty text, and any other value goes
    through the string conversion [toText] of the page. *)
Definition assignText (toText : JsVal -> string) (v : JsVal) : string :=
  match v with
  | VStr s => s
  | VNull => ""
  | _ => toText v
  end.

Section Presentation.
Context `{JsEnv}.
Variable toText : JsVal -> string.

(** [autocompleteDisplayFn()]: the function handed to the autocomplete
    panel. A configured [displayItemFn] is returned as it is; otherwise the
    result is a closure over the component, which reads it when called. *)
Definition autocompleteDisplayFn : M (JsVal -> M JsVal) :=
  do fn <- input displayItemFn;
  match fn with
  | Some f => ret (fun item => ret (VStr (f item)))
  | None => ret (fun item => if truthy item then viewItem item else ret item)
  end.

(** [onBlur($event)]. [searchButton] is the native element of the search
    button of the view, if the view has one, and [relatedTarget] the
    element that receives the focus, if any, both by reference. *)
Definition onBlur (searchButton relatedTarget : option nat) : M unit :=
  do txt <- gets inputText;
  if bool_decide (is_Some searchButton)
     && String.eqb txt ""
     && negb (bool_decide (relatedTarget = searchButton))
  then
    do m <- gets currentModel;
    do v <- (if truthy m then viewItem m else ret (VStr ""));
    modify (set_inputText (assignText toText v))
  else ret tt.

(** [onCreateNew()]. The result is the value passed to [createNew.emit]. *)
Definition onCreateNew : M JsVal :=
  do m <- gets currentModel;
  exec (if truthy m then
          do rt <- gets returnType;
          do v <- (if returnType_is rt m then viewItem m else ret m);
          modify (set_inputText (assignText toText v))
        else ret tt);
  gets currentModel.

End Presentation.

(** The string conversion of a page that shows every other value as "?". *)
Definition plain_text (v : JsVal) : string := "?".

(** An array is the only source: no service is bound. *)
Definition is_service_binding (e : Event) : bool :=
  match e with
  | ESetSource (SrcService _) => true
  | _ => false
  end.

(** No service is bound and none was ever called. *)
Definition Unserved (w : World) : Prop :=
  service (st w) = None /\ pending w = [] /\ nextTicket w = 0%nat
  /\ requestsInQueue (st w) = 0.

(** A service is bound and the user has typed "Ap". *)
Definition world_remote : World :=
  @run fruit_env (init fruit_inputs) [ESetSource (SrcService 7); EInputText "Ap"].

(** Two fetches are in flight. *)
Definition world_two_fetches : World :=
  @run fruit_env (init one_char_inputs) (take 5 trace_overlap).

(** A fresh component with a display expression and nothing bound. *)
Definition world_unbound : World :=
  @run fruit_env (init fruit_inputs) [EInputText "Ap"].

(** A fresh component without any display strategy, holding a collection. *)
Definition world_no_display : World :=
  @run fruit_env (init default_inputs) [ESetSource (SrcArray fruits); EInputText "Ap"].

(** The fruit collection with the text "AP" and with the text "Apr". *)
Definition world_fruits_upper : World :=
  @run fruit_env world_fruits [EInputText "AP"].

(** The user has picked Apricot and emptied the text. *)
Definition world_picked : World :=
  @run fruit_env world_fruits [ESelected (VObj 2); EInputText ""].

(** A fetch was rejected. *)
Definition trace_rejected : list Event :=
  [ESetSource (SrcService 7); EInputText "xyz"; EOnKey 90; EReject 0].

(** A component that prefetches, with a service bound, before it is
    initialised. *)
Definition world_before_init : World :=
  @run fruit_env (init prefetch_inputs) [ESetSource (SrcService 7)].

(** A threshold of zero and an empty text over the fruit collection. *)
Definition zero_chars_inputs : Inputs := {|
  doPrefetch := false;
  displayItem := Some "item.name";
  minChars := 0;
  clearAfterSearch := false;
  serviceParams := None;
  displayItemFn := None;
  filterCallback := fun x => Some x
|}.

Definition world_zero_chars : World :=
  @run fruit_env (init zero_chars_inputs) [ESetSource (SrcArray fruits)].

(** Everything a user can do to a component bound to an array, a forced
    fetch included. *)
Definition trace_array_only : list Event :=
  [ESetSource (SrcArray fruits); EInputText "Ap"; EOnKey 80; EOnFocus;
   ESelected (VObj 1); EFetch true; ENgOnInit].

(** The requests of [world_two_fetches]. *)
Definition request_a : Request :=
  {| ticket := 0; kont := KFetch; target := 7; params := <["query" := "a"]> ∅ |}.

Definition request_ab : Request :=
  {| ticket := 1; kont := KFetch; target := 7; params := <["query" := "ab"]> ∅ |}.

(** The turns that can write the model or notify the host: an assignment
    to [model], a selection, a key press, a clearing. *)
Definition writes_model (e : Event) : bool :=
  match e with
  | ESetModel _ | ESelected _ | EOnKey _ | EClearValue => true
  | _ => false
  end.

(** The turns that may replace the stored collection, told without looking
    at the component. *)
Definition may_replace_collection (e : Event) : bool :=
  match e with
  | ESetSource (SrcArray _) | EPrefetch | ENgOnInit | EResolve _ _ => true
  | _ => false
  end.

(** The user types on while the prefetch is in flight. *)
Definition trace_typing : list Event := [EInputText "Apr"; EOnKey 82; EOnFocus].

(** The turns that can replace the stored collection: the binding of an
    array, a prefetch (also from [ngOnInit]) and the completion of one. *)
Definition replaces_collection (w : World) (e : Event) : bool :=
  match e with
  | ESetSource (SrcArray _) | EPrefetch => true
  | ENgOnInit => doPrefetch (cfg w)
  | EResolve t _ =>
      match find_request t (pending w) with
      | Some r => negb (is_fetch r)
      | None => false
      end
  | _ => false
  end.

(** Searches and results come and go around a selection. *)
Definition trace_search_only : list Event :=
  [EInputText "an"; EOnFocus; ESetSource (SrcService 7); EOnKeyCallback;
   EResolve 0 [VObj 3]; EFetch true; EReject 1].

(** The display expression is [item] itself, and the collection holds a
    number in front of an empty string. *)
Definition item_inputs : Inputs := {|
  doPrefetch := false;
  displayItem := Some "item";
  minChars := 2;
  clearAfterSearch := false;
  serviceParams := None;
  displayItemFn := None;
  filterCallback := fun x => Some x
|}.

Definition world_number_first : World :=
  @run fruit_env (init item_inputs)
    [ESetSource (SrcArray [VNum 1; VStr ""]); EInputText "ap"].

(** ** Strings *)

Section Strings.
Local Open Scope string_scope.

Lemma append_empty_l (s : string) : "" ++ s = s.
Proof. reflexivity. Qed.

Lemma append_String (c : ascii) (s t : string) : String c s ++ t = String c (s ++ t).
Proof. reflexivity. Qed.

Lemma startsWith_app (t post : string) : startsWith (t ++ post) t = true.
Proof.
  induction t as [|c t IH]; simpl; [done|].
  rewrite Ascii.eqb_refl. exact IH.
Qed.

Lemma startsWith_inv (s t : string) :
  startsWith s t = true -> exists post, s = t ++ post.
Proof.
  revert s. induction t as [|c t IH]; intros s Hs; simpl in *.
  - by exists s.
  - destruct s as [|a s]; [by destruct t|].
    simpl in Hs. destruct (Ascii.eqb a c) eqn:E; [|done].
    apply Ascii.eqb_eq in E as ->.
    destruct (IH _ Hs) as [post ->]. by exists post.
Qed.

Lemma indexOf_from_found (i : Z) (s t : string) :
  0 <= i ->
  (indexOf_from i s t >? -1) = true <-> exists pre post, s = pre ++ t ++ post.
Proof.
  revert i. induction s as [|a s IH]; intros i Hi.
  - simpl. destruct (startsWith "" t) eqn:E.
    + split; [intros _|intros _; lia].
      apply startsWith_inv in E as [post E]. by exists "", post.
    + split; [lia|]. intros (pre & post & E').
      destruct pre; [|done]. rewrite append_empty_l in E'.
      destruct t; [done|discriminate E'].
  - cbn [indexOf_from]. destruct (startsWith (String a s) t) eqn:E.
    + split; [intros _|intros _; lia].
      apply startsWith_inv in E as [post E]. by exists "", post.
    + rewrite (IH (i + 1)) by lia. split.
      * intros (pre & post & ->). by exists (String a pre), post.
      * intros (pre & post & E'). destruct pre as [|b pre].
        -- rewrite append_empty_l in E'. rewrite E', startsWith_app in E. done.
        -- rewrite append_String in E'. injection E' as -> ->. by exists pre, post.
Qed.

End Strings.

Section CaseFolding.
Context `{JsEnv}.
Local Open Scope string_scope.

(** The test of [filterStoredItems], lower-casing both sides and asking
    [indexOf] for a position, decides containment without regard to case. *)
Lemma indexOf_contains_ci (d q : string) :
  (indexOf (toLowerCase d) (toLowerCase q) >? -1) = true <-> contains_ci d q.
Proof. unfold indexOf, contains_ci. by rewrite indexOf_from_found by lia. Qed.

End CaseFolding.

(** ** Reading the monad *)

Ltac unfold_m :=
  unfold bind, ret, throw, lift, gets, input, modify, emit, dispatch,
    with_st, with_cfg, with_pending, with_emitted in *.

Ltac crush_m := unfold_m; simpl in *; repeat (case_match; simpl in *; simplify_eq); try done.

Section DisplayFacts.
Context `{JsEnv}.

Lemma viewItem_snd (item : JsVal) (w : World) : snd (viewItem item w) = w.
Proof. unfold viewItem. crush_m. Qed.

Lemma viewItem_fst_ext (item : JsVal) (w1 w2 : World) :
  cfg w1 = cfg w2 -> fst (viewItem item w1) = fst (viewItem item w2).
Proof.
  intros E. unfold viewItem. unfold_m. simpl. rewrite E.
  destruct (displayItemFn (cfg w2)); simpl; [done|].
  rewrite E. by repeat case_match.
Qed.

Lemma viewItem_eq (item : JsVal) (w : World) :
  viewItem item w = (fst (viewItem item w), w).
Proof. rewrite <- (viewItem_snd item w) at 3. by destruct (viewItem item w). Qed.

Lemma resolves_ext (w1 w2 : World) (item : JsVal) (d : string) :
  cfg w1 = cfg w2 -> resolves w1 item d -> resolves w2 item d.
Proof. unfold resolves. intros E. by rewrite (viewItem_fst_ext item w1 w2 E). Qed.

Lemma resolves_fn (w : World) (item : JsVal) (d : string) (f : JsVal -> string) :
  displayItemFn (cfg w) = Some f -> resolves w item d -> f item = d.
Proof. unfold resolves, viewItem. intros E. unfold_m. simpl. rewrite E. simpl. congruence. Qed.

(** What the filter predicate does on a candidate that resolves to a
    string: it throws on the empty string and otherwise tests containment. *)
Lemma keepItem_string (w : World) (item : JsVal) (d : string) :
  resolves w item d ->
  keepItem item w =
    (if String.eqb d "" then Throw ErrDisplayWrong
     else Ret (indexOf (toLowerCase d) (toLowerCase (query (st w))) >? -1), w).
Proof.
  intros R. unfold keepItem, bind at 1. rewrite viewItem_eq, R. simpl.
  destruct (String.eqb d "") eqn:E; simpl; [done|].
  unfold bind at 1. rewrite viewItem_eq, R.
  unfold lower_of. unfold_m. simpl.
  destruct (displayItemFn (cfg w)) as [f|] eqn:F; [|done].
  by rewrite (resolves_fn w item d f F R).
Qed.

(** On a candidate that resolves to a falsy value it throws the
    configuration error. *)
Lemma keepItem_falsy (w : World) (item v : JsVal) :
  fst (viewItem item w) = Ret v -> truthy v = false ->
  keepItem item w = (Throw ErrDisplayWrong, w).
Proof.
  intros R F. unfold keepItem, bind at 1. rewrite viewItem_eq, R. simpl.
  by rewrite F.
Qed.

Lemma keepItem_snd (item : JsVal) (w : World) : snd (keepItem item w) = w.
Proof.
  unfold keepItem, bind at 1. rewrite viewItem_eq.
  destruct (fst (viewItem item w)) as [v|e]; [|done].
  destruct (negb (truthy v)); [done|].
  unfold bind at 1. rewrite viewItem_eq.
  destruct (fst (viewItem item w)) as [v'|e]; [|done].
  unfold lower_of. crush_m.
Qed.

Lemma keepItem_fst_ext (item : JsVal) (w1 w2 : World) :
  cfg w1 = cfg w2 -> query (st w1) = query (st w2) ->
  fst (keepItem item w1) = fst (keepItem item w2).
Proof.
  intros E Q.
  cbv beta iota delta [keepItem bind input gets ret throw lower_of].
  rewrite (viewItem_eq item w1), (viewItem_eq item w2).
  rewrite (viewItem_fst_ext item w1 w2 E).
  destruct (fst (viewItem item w2)) as [v|e] eqn:V; [|done].
  cbn beta iota zeta. destruct (negb (truthy v)); [done|].
  rewrite (viewItem_eq item w1), (viewItem_eq item w2).
  rewrite (viewItem_fst_ext item w1 w2 E), V.
  destruct v; cbn beta iota zeta; try done. by rewrite E, Q.
Qed.

Lemma keepItem_eq (item : JsVal) (w : World) :
  keepItem item w = (fst (keepItem item w), w).
Proof. rewrite <- (keepItem_snd item w) at 3. by destruct (keepItem item w). Qed.

Lemma filterM_keepItem_snd (items : list JsVal) (w : World) :
  snd (filterM keepItem items w) = w.
Proof.
  induction items as [|x items IH]; [done|].
  simpl. unfold bind at 1.
  pose proof (keepItem_snd x w) as Hx.
  destruct (keepItem x w) as [[b|e] w1]; simpl in Hx; subst w1; [|done].
  unfold bind at 1.
  destruct (filterM keepItem items w) as [[k|e] w1]; simpl in IH; subst w1; done.
Qed.

Lemma filterM_keepItem_eq (items : list JsVal) (w : World) :
  filterM keepItem items w = (fst (filterM keepItem items w), w).
Proof.
  rewrite <- (filterM_keepItem_snd items w) at 3.
  by destruct (filterM keepItem items w).
Qed.

Lemma filterM_keepItem_fst_ext (items : list JsVal) (w1 w2 : World) :
  cfg w1 = cfg w2 -> query (st w1) = query (st w2) ->
  fst (filterM keepItem items w1) = fst (filterM keepItem items w2).
Proof.
  intros E Q. induction items as [|x items IH]; [done|].
  simpl. unfold bind.
  rewrite (keepItem_eq x w1), (keepItem_eq x w2), (keepItem_fst_ext x w1 w2 E Q).
  destruct (fst (keepItem x w2)) as [b|e]; [|done].
  rewrite (filterM_keepItem_eq items w1), (filterM_keepItem_eq items w2), IH.
  by destruct (fst (filterM keepItem items w2)).
Qed.

End DisplayFacts.

(** ** Local filtering *)

Section LocalFiltering.
Context `{JsEnv}.

Lemma resolves_functional (w : World) (item : JsVal) (d d' : string) :
  resolves w item d -> resolves w item d' -> d = d'.
Proof. unfold resolves. congruence. Qed.

Lemma String_eqb_empty (d : string) : String.eqb d "" = false <-> d <> "".
Proof. by rewrite String.eqb_neq. Qed.

(** When every candidate resolves to a string that is not empty, the
    traversal ends normally with the candidates that match. *)
Lemma filterM_selects (w : World) (items : list JsVal) :
  (forall item, item ∈ items -> exists d, resolves w item d /\ d <> "") ->
  exists kept,
    filterM keepItem items w = (Ret kept, w)
    /\ selects (matches w (query (st w))) items kept.
Proof.
  induction items as [|x items IH]; intros Hall.
  - exists []. split; [done|constructor].
  - destruct (Hall x) as (d & R & Hd); [by left|].
    destruct IH as (kept & E & S); [intros y Hy; apply Hall; by right|].
    simpl. unfold bind at 1. rewrite (keepItem_string w x d R).
    apply String_eqb_empty in Hd. rewrite Hd.
    unfold bind at 1. rewrite E. unfold ret.
    destruct (indexOf (toLowerCase d) (toLowerCase (query (st w))) >? -1) eqn:I.
    + exists (x :: kept). split; [done|].
      apply selects_keep; [|done]. exists d. split; [done|].
      by apply indexOf_contains_ci.
    + exists kept. split; [done|].
      apply selects_drop; [|done]. intros (d' & R' & C).
      rewrite (resolves_functional w x d' d R' R) in C.
      apply indexOf_contains_ci in C. congruence.
Qed.

(** When the candidates in front resolve to strings that are not empty and
    the next one resolves to a falsy value, the traversal ends there with the
    configuration error; the candidates behind are not looked at. *)
Lemma filterM_throws (w : World) (pre post : list JsVal) (x v : JsVal) :
  (forall y, y ∈ pre -> exists d, resolves w y d /\ d <> "") ->
  fst (viewItem x w) = Ret v -> truthy v = false ->
  filterM keepItem (pre ++ x :: post) w = (Throw ErrDisplayWrong, w).
Proof.
  intros Hall Rx Fx. induction pre as [|y pre IH]; simpl; unfold bind at 1.
  - by rewrite (keepItem_falsy w x v Rx Fx).
  - destruct (Hall y) as (d & Ry & Hd); [by left|].
    rewrite (keepItem_string w y d Ry).
    apply String_eqb_empty in Hd. rewrite Hd.
    unfold bind at 1. rewrite IH; [done|].
    intros z Hz. apply Hall. by right.
Qed.

(** The shape of [filterStoredItems] once the configuration check and the
    length check have passed. *)
Lemma filterStoredItems_run (w : World) (items : list JsVal) :
  display_configured w ->
  minChars (cfg w) <= strlen (inputText (st w)) ->
  storedItems (st w) = Some items ->
  let w1 := with_st (set_query (inputText (st w))) w in
  filterStoredItems w =
    match filterM keepItem items w1 with
    | (Ret kept, _) =>
        (Ret tt,
         with_st (set_noSuggestions
                    (Some ((strlen (inputText (st w)) >? 0) && Nat.eqb (length kept) 0)))
           (with_st (set_autocompleteList (Some kept)) w1))
    | (Throw e, _) => (Throw e, w1)
    end.
Proof.
  intros D L S w1. 
  cbv beta iota delta [filterStoredItems bind input gets modify ret throw].
  assert (negb (displayItem_set (displayItem (cfg w)))
          && negb (bool_decide (is_Some (displayItemFn (cfg w)))) = false) as ->.
  { destruct D as [->|D]; [done|]. rewrite (bool_decide_eq_true_2 _ D).
    by rewrite andb_false_r. }
  fold w1.
  change (query (st w1)) with (inputText (st w)).
  change (minChars (cfg w1)) with (minChars (cfg w)).
  assert ((strlen (inputText (st w)) <? minChars (cfg w)) = false) as -> by lia.
  change (storedItems (st w1)) with (storedItems (st w)). rewrite S.
  pose proof (filterM_keepItem_snd items w1) as Hs.
  destruct (filterM keepItem items w1) as [[kept|e] w2]; simpl in Hs; subst w2; [|done].
  done.
Qed.

(** C2 (amended). For a stored collection that is not empty, a configured
    display strategy, candidates that all resolve to display strings that
    are not empty, and a query [Q] of at least [minChars] characters:
    [filterStoredItems] returns, the candidate list is exactly the
    subsequence, in the original order, of the stored candidates whose
    display string contains [Q] case-insensitively, [noSuggestions] is
    true exactly when [Q] is not empty and that subsequence is empty, and
    running it again changes nothing. *)
Theorem filterStoredItems_selects (w : World) (items : list JsVal) :
  storedItems (st w) = Some items ->
  items <> [] ->
  display_configured w ->
  minChars (cfg w) <= strlen (inputText (st w)) ->
  (forall item, item ∈ items -> exists d, resolves w item d /\ d <> "") ->
  exists kept w',
    filterStoredItems w = (Ret tt, w')
    /\ autocompleteList (st w') = Some kept
    /\ selects (matches w (inputText (st w))) items kept
    /\ (exists b, noSuggestions (st w') = Some b
                  /\ (b = true <-> inputText (st w) <> "" /\ kept = []))
    /\ filterStoredItems w' = (Ret tt, w').
Proof.
  intros S _ D L Hall.
  set (w1 := with_st (set_query (inputText (st w))) w).
  destruct (filterM_selects w1 items) as (kept & E & Sel).
  { intros item Hi. destruct (Hall item Hi) as (d & R & Hd).
    exists d. split; [|done]. by apply (resolves_ext w w1). }
  set (w' := with_st (set_noSuggestions
                        (Some ((strlen (inputText (st w)) >? 0) && Nat.eqb (length kept) 0)))
               (with_st (set_autocompleteList (Some kept)) w1)).
  exists kept, w'. split; [|split; [done|split; [|split]]].
  - rewrite (filterStoredItems_run w items D L S). fold w1. by rewrite E.
  - clear -Sel. induction Sel as [|x l k (d & R & C) _ IH|x l k N _ IH].
    + constructor.
    + apply selects_keep; [|done]. exists d. split; [|done].
      by apply (resolves_ext w1 w).
    + apply selects_drop; [|done]. intros (d & R & C). apply N.
      exists d. split; [|done]. by apply (resolves_ext w w1).
  - eexists. split; [reflexivity|]. rewrite andb_true_iff.
    unfold strlen. rewrite Nat.eqb_eq, Z.gtb_ltb, Z.ltb_lt. split.
    + intros [Hq Hk]. split.
      * intros Eq. rewrite Eq in Hq. simpl in Hq. lia.
      * by destruct kept.
    + intros [Hq ->]. split; [|done].
      destruct (inputText (st w)); [done|]. simpl. lia.
  - rewrite (filterStoredItems_run w' items D L S).
    assert (with_st (set_query (inputText (st w'))) w' = w') as ->.
    { unfold w', w1. destruct w as [c [] p n e]. done. }
    rewrite (filterM_keepItem_eq items w').
    rewrite (filterM_keepItem_fst_ext items w' w1), E by done.
    unfold w', w1. destruct w as [c [] p n e]. done.
Qed.

(** C10 (amended). When a stored candidate resolves to a falsy display
    value (the empty string, or [undefined]) and every candidate before it
    resolves to a display string that is not empty, [filterStoredItems]
    with a qualifying query raises the configuration error, whatever the
    candidates behind it are; the candidate list and the empty flag stay
    as they were, the candidate being neither dropped nor kept. *)
Theorem filterStoredItems_falsy_display_throws (w : World)
    (pre post : list JsVal) (x v : JsVal) :
  storedItems (st w) = Some (pre ++ x :: post) ->
  display_configured w ->
  minChars (cfg w) <= strlen (inputText (st w)) ->
  (forall y, y ∈ pre -> exists d, resolves w y d /\ d <> "") ->
  fst (viewItem x w) = Ret v ->
  truthy v = false ->
  exists w',
    filterStoredItems w = (Throw ErrDisplayWrong, w')
    /\ autocompleteList (st w') = autocompleteList (st w)
    /\ noSuggestions (st w') = noSuggestions (st w).
Proof.
  intros S D L Hall Rx Fx.
  set (w1 := with_st (set_query (inputText (st w))) w).
  exists w1. split; [|done].
  rewrite (filterStoredItems_run w _ D L S). fold w1.
  rewrite (filterM_throws w1 pre post x v); [done| |by rewrite (viewItem_fst_ext x w1 w)|done].
  intros y Hy. destruct (Hall y Hy) as (d & Ry & Hd).
  exists d. split; [|done]. by apply (resolves_ext w w1).
Qed.

End LocalFiltering.

Lemma filterStoredItems_selects_witness :
  exists kept w',
    @filterStoredItems fruit_env world_fruits = (Ret tt, w')
    /\ autocompleteList (st w') = Some kept
    /\ selects (@matches fruit_env world_fruits (inputText (st world_fruits))) fruits kept
    /\ (exists b, noSuggestions (st w') = Some b
                  /\ (b = true <-> inputText (st world_fruits) <> "" /\ kept = []))
    /\ @filterStoredItems fruit_env w' = (Ret tt, w').
Proof.
  apply (@filterStoredItems_selects fruit_env world_fruits fruits).
  - reflexivity.
  - discriminate.
  - left. reflexivity.
  - vm_compute. discriminate.
  - intros item Hi.
    repeat (apply elem_of_cons in Hi as [->|Hi]); [| | |by apply elem_of_nil in Hi].
    + exists "Apple". split; [reflexivity|discriminate].
    + exists "Apricot". split; [reflexivity|discriminate].
    + exists "Banana". split; [reflexivity|discriminate].
Defined.

(** C2 as stated fails. The collection Apple, "" is not empty and the query
    "ap" has [minChars] characters; the subsequence of the candidates whose
    display string contains "ap" is Apple alone, but the filter is
    abandoned at the candidate with the empty display string and no
    candidate list is set. *)
Lemma filterStoredItems_blank_counterexample :
  let w := world_blank_name in
  let items := [VObj 1; VObj 4] in
  (storedItems (st w) = Some items /\ items <> []
   /\ @display_configured w
   /\ minChars (cfg w) <= strlen (inputText (st w))
   /\ @resolves fruit_env w (VObj 1) "Apple" /\ @resolves fruit_env w (VObj 4) "")
  /\ selects (@matches fruit_env w (inputText (st w))) items [VObj 1]
  /\ fst (@filterStoredItems fruit_env w) = Throw ErrDisplayWrong
  /\ autocompleteList (st (snd (@filterStoredItems fruit_env w))) = None
  /\ ~ (exists kept,
          autocompleteList (st (snd (@filterStoredItems fruit_env w))) = Some kept
          /\ selects (@matches fruit_env w (inputText (st w))) items kept).
Proof.
  cbv zeta. split; [|split; [|split; [|split]]].
  - split; [reflexivity|]. split; [discriminate|]. split; [left; reflexivity|].
    split; [vm_compute; discriminate|]. split; reflexivity.
  - apply selects_keep.
    + exists "Apple". split; [reflexivity|]. apply indexOf_contains_ci. reflexivity.
    + apply selects_drop; [|constructor].
      intros (d & R & C). assert (d = "") as -> by (vm_compute in R; congruence).
      apply indexOf_contains_ci in C. vm_compute in C. discriminate C.
  - reflexivity.
  - reflexivity.
  - intros (kept & E & _). vm_compute in E. discriminate E.
Qed.

Lemma filterStoredItems_falsy_display_throws_witness :
  exists w',
    @filterStoredItems fruit_env world_blank_name = (Throw ErrDisplayWrong, w')
    /\ autocompleteList (st w') = autocompleteList (st world_blank_name)
    /\ noSuggestions (st w') = noSuggestions (st world_blank_name).
Proof.
  apply (@filterStoredItems_falsy_display_throws fruit_env world_blank_name
           [VObj 1] [] (VObj 4) (VStr "")).
  - reflexivity.
  - left. reflexivity.
  - vm_compute. discriminate.
  - intros y Hy.
    apply elem_of_cons in Hy as [->|Hy]; [|by apply elem_of_nil in Hy].
    exists "Apple". split; [reflexivity|discriminate].
  - reflexivity.
  - reflexivity.
Defined.

(** C10 as stated fails. With the display expression [item], the collection
    1, "" holds a candidate whose display string is the empty string, but
    the candidate in front of it resolves to a number, on which
    [toLowerCase] is not a function: a qualifying query raises a
    [TypeError], not the configuration error. *)
Lemma filterStoredItems_number_first_counterexample :
  let w := world_number_first in
  (storedItems (st w) = Some [VNum 1; VStr ""]
   /\ @display_configured w
   /\ minChars (cfg w) <= strlen (inputText (st w))
   /\ VStr "" ∈ [VNum 1; VStr ""]
   /\ fst (@viewItem fruit_env (VStr "") w) = Ret (VStr "")
   /\ truthy (VStr "") = false)
  /\ fst (@filterStoredItems fruit_env w) = Throw TypeError
  /\ fst (@filterStoredItems fruit_env w) <> Throw ErrDisplayWrong.
Proof.
  cbv zeta. split; [|split; [reflexivity|vm_compute; discriminate]].
  split; [reflexivity|]. split; [left; reflexivity|].
  split; [vm_compute; discriminate|].
  split; [apply elem_of_cons; right; apply elem_of_cons; by left|].
  split; reflexivity.
Qed.

(** ** The model bridge *)

Section ModelBridge.

Lemma strict_eq_true (a b : JsVal) : strict_eq a b = true -> a = b.
Proof.
  unfold strict_eq. destruct a, b; try done; intros E; by apply bool_decide_eq_true in E.
Qed.

Lemma strict_eq_null (v : JsVal) : strict_eq v VNull = true <-> v = VNull.
Proof. split; [apply strict_eq_true|by intros ->]. Qed.

Lemma returnType_is_true (rt : option string) (v : JsVal) :
  returnType_is rt v = true <-> rt = Some (typeof v).
Proof.
  destruct rt as [t|]; simpl; [|done].
  rewrite String.eqb_eq. split; congruence.
Qed.

Lemma notifies_iff (rt : option string) (v : JsVal) :
  strict_eq v VNull || returnType_is rt v = true
  <-> v = VNull \/ rt = Some (typeof v).
Proof. by rewrite orb_true_iff, strict_eq_null, returnType_is_true. Qed.

Lemma app_one_neq {A} (l : list A) (x : A) : l <> l ++ [x].
Proof.
  intros E. apply (f_equal length) in E. rewrite length_app in E. simpl in E. lia.
Qed.

(** C3. Assigning to [model] a value that differs from the current model
    always stores the value, and [modelChange] is emitted if and only if the
    value is [null] or its runtime type is the cached kind. *)
Theorem set_model_stores_and_notifies (w : World) (v : JsVal) :
  strict_neq v (currentModel (st w)) = true ->
  let w' := snd (set_model v w) in
  fst (set_model v w) = Ret tt
  /\ currentModel (st w') = v
  /\ (emitted w' = emitted w ++ [ModelChange v]
      <-> v = VNull \/ returnType (st w) = Some (typeof v))
  /\ (emitted w' = emitted w \/ emitted w' = emitted w ++ [ModelChange v]).
Proof.
  intros N. unfold set_model.
  cbv beta iota delta [bind gets modify ret]. rewrite N.
  cbv beta iota delta [bind gets modify ret]. simpl.
  pose proof (notifies_iff (returnType (st w)) v) as I.
  destruct (strict_eq v VNull || returnType_is (returnType (st w)) v); simpl.
  - split; [done|]. split; [done|]. split; [|by right].
    split; [by intros _; apply I|done].
  - split; [done|]. split; [done|]. split; [|by left].
    split; [|by intros ?%I].
    intros E. by apply app_one_neq in E.
Qed.

Lemma set_model_currentModel (w : World) (v : JsVal) :
  currentModel (st (snd (set_model v w))) = v.
Proof.
  unfold set_model. cbv beta iota delta [bind gets modify ret].
  destruct (strict_neq v (currentModel (st w))) eqn:N.
  - crush_m.
  - simpl. apply negb_false_iff in N. symmetry. by apply strict_eq_true.
Qed.

Lemma set_model_eq (w : World) (v : JsVal) :
  set_model v w = (Ret tt, snd (set_model v w)).
Proof. unfold set_model. crush_m. Qed.

Lemma set_model_frame (w : World) (v : JsVal) :
  let w' := snd (set_model v w) in
  cfg w' = cfg w /\ value (st w') = value (st w)
  /\ exists l, emitted w' = emitted w ++ l /\ forall x, x ∈ l -> x = ModelChange v.
Proof.
  unfold set_model. cbv beta iota delta [bind gets modify ret emit].
  destruct (strict_neq v (currentModel (st w))); simpl;
    [destruct (strict_eq v VNull || returnType_is (returnType (st w)) v); simpl|];
    (split; [done|split; [done|]]).
  - exists [ModelChange v]. split; [done|]. by intros x ->%list_elem_of_singleton.
  - exists []. split; [by rewrite app_nil_r|]. by intros x ?%elem_of_nil.
  - exists []. split; [by rewrite app_nil_r|]. by intros x ?%elem_of_nil.
Qed.

Lemma clearValue_eq (w : World) :
  clearValue w = (Ret tt, snd (clearValue w)).
Proof.
  unfold clearValue, reset_formControl.
  cbv beta iota delta [bind gets modify emit ret].
  destruct (formControlItem (st w)); rewrite set_model_eq; reflexivity.
Qed.

Lemma clearValue_clears (w : World) :
  currentModel (st (snd (clearValue w))) = VNull
  /\ value (st (snd (clearValue w))) = VStr "".
Proof.
  unfold clearValue, reset_formControl.
  cbv beta iota delta [bind gets modify emit ret].
  destruct (formControlItem (st w));
    rewrite set_model_eq; cbv beta iota delta [set_value bind modify emit]; simpl;
    (split; [apply set_model_currentModel|done]).
Qed.

(** The world after the assignments and the notification of a selection,
    before the optional clearing. *)
Lemma autocompleteSelected_run (w : World) (selected : JsVal) :
  let wa := snd (set_value selected (with_st (set_query (inputText (st w))) w)) in
  let wb := snd (set_model selected wa) in
  let w1 := if truthy selected then snd (emit (OptionSelected selected) wb) else wb in
  autocompleteSelected selected w =
    (if clearAfterSearch (cfg w) then clearValue w1 else (Ret tt, w1)).
Proof.
  intros wa wb w1. unfold autocompleteSelected.
  cbv beta iota delta [bind gets modify input].
  change (set_value selected (with_st (set_query (inputText (st w))) w))
    with (Ret tt, wa).
  cbv beta iota. rewrite (set_model_eq wa selected). fold wb. cbv beta iota.
  assert (cfg w1 = cfg w) as Hc.
  { unfold w1, wb. destruct (truthy selected); simpl;
      by destruct (set_model_frame wa selected) as (-> & _). }
  unfold w1 in *. destruct (truthy selected); cbv beta iota delta [emit ret] in *;
    simpl in Hc |- *; rewrite Hc; by destruct (clearAfterSearch (cfg w)).
Qed.

(** C4 (amended). A selection sets the bound value and the model to the
    candidate and emits [optionSelected] if and only if the candidate is
    truthy; with [clearAfterSearch] the control is then cleared, leaving the
    model [null] and the value the empty string. *)
Theorem autocompleteSelected_sets_and_notifies (w : World) (selected : JsVal) :
  exists w1 news,
    value (st w1) = selected
    /\ currentModel (st w1) = selected
    /\ emitted w1 = emitted w ++ news
    /\ (OptionSelected selected ∈ news <-> truthy selected = true)
    /\ autocompleteSelected selected w =
         (if clearAfterSearch (cfg w) then clearValue w1 else (Ret tt, w1))
    /\ (let w' := snd (autocompleteSelected selected w) in
        if clearAfterSearch (cfg w)
        then currentModel (st w') = VNull /\ value (st w') = VStr ""
        else currentModel (st w') = selected /\ value (st w') = selected).
Proof.
  pose proof (autocompleteSelected_run w selected) as Run. simpl in Run.
  set (wa := snd (set_value selected (with_st (set_query (inputText (st w))) w))) in *.
  set (wb := snd (set_model selected wa)) in *.
  set (w1 := if truthy selected then snd (emit (OptionSelected selected) wb) else wb) in *.
  destruct (set_model_frame wa selected) as (_ & V & l & El & Hl). fold wb in V, El.
  assert (value (st w1) = selected) as V1.
  { unfold w1. destruct (truthy selected); simpl; by rewrite V. }
  assert (currentModel (st w1) = selected) as M1.
  { unfold w1. destruct (truthy selected); simpl; apply set_model_currentModel. }
  exists w1,
    ([ValueChange selected] ++ l
       ++ if truthy selected then [OptionSelected selected] else []).
  split; [done|]. split; [done|]. split; [|split; [|split; [done|]]].
  - unfold w1. destruct (truthy selected); simpl; rewrite El; simpl;
      by rewrite <- ?app_assoc, ?app_nil_r.
  - rewrite !elem_of_app, list_elem_of_singleton. split.
    + intros [?|[Hx|Hx]]; [done|by apply Hl in Hx|].
      destruct (truthy selected); [done|by apply elem_of_nil in Hx].
    + intros ->. right. right. by apply list_elem_of_singleton.
  - simpl. rewrite Run. destruct (clearAfterSearch (cfg w)); simpl; [|done].
    apply clearValue_clears.
Qed.

End ModelBridge.

Lemma set_model_stores_and_notifies_witness :
  let w' := snd (set_model (VObj 2) world_fruits) in
  fst (set_model (VObj 2) world_fruits) = Ret tt
  /\ currentModel (st w') = VObj 2
  /\ (emitted w' = emitted world_fruits ++ [ModelChange (VObj 2)]
      <-> VObj 2 = VNull \/ returnType (st world_fruits) = Some (typeof (VObj 2)))
  /\ (emitted w' = emitted world_fruits
      \/ emitted w' = emitted world_fruits ++ [ModelChange (VObj 2)]).
Proof.
  apply (set_model_stores_and_notifies world_fruits (VObj 2)). reflexivity.
Defined.

(** C4 as stated fails. The candidate [0] of the list 0, 1, 2 is not
    [null], yet selecting it emits no [optionSelected]: the value and the
    model are notified and nothing else. *)
Lemma autocompleteSelected_zero_counterexample :
  let w := world_digits in
  let w' := snd (autocompleteSelected (VNum 0) w) in
  VNum 0 <> VNull
  /\ value (st w') = VNum 0 /\ currentModel (st w') = VNum 0
  /\ emitted w' = emitted w ++ [ValueChange (VNum 0); ModelChange (VNum 0)]
  /\ OptionSelected (VNum 0) ∉ emitted w'.
Proof.
  cbv zeta. split; [discriminate|]. split; [reflexivity|]. split; [reflexivity|].
  split; [reflexivity|].
  change (emitted (snd (autocompleteSelected (VNum 0) world_digits)))
    with [ValueChange (VNum 0); ModelChange (VNum 0)].
  intros Hin.
  repeat (apply elem_of_cons in Hin as [Hin|Hin]; [discriminate Hin|]).
  by apply elem_of_nil in Hin.
Qed.

(** ** Dispatch *)

Section Dispatch.
Context `{JsEnv}.

Lemma isQueryEmpty_iff (q : string) : isQueryEmpty q = true <-> q = "".
Proof.
  unfold isQueryEmpty, strlen. rewrite Z.leb_le. destruct q; simpl; [done|].
  split; [lia|done].
Qed.

Lemma isQueryEmpty_eqb (q : string) : isQueryEmpty q = String.eqb q "".
Proof.
  apply eq_true_iff_eq. by rewrite isQueryEmpty_iff, String.eqb_eq.
Qed.

Lemma filterStoredItems_unfold (w : World) :
  filterStoredItems w =
    if negb (displayItem_set (displayItem (cfg w)))
       && negb (bool_decide (is_Some (displayItemFn (cfg w))))
    then (Throw ErrNoDisplay, w)
    else
      let w1 := with_st (set_query (inputText (st w))) w in
      if strlen (inputText (st w)) <? minChars (cfg w) then (Ret tt, w1)
      else match storedItems (st w) with
           | Some items =>
               match fst (filterM keepItem items w1) with
               | Ret kept =>
                   (Ret tt,
                    with_st (fun c =>
                      set_noSuggestions
                        (Some ((strlen (inputText (st w)) >? 0)
                               && Nat.eqb (length kept) 0))
                        (set_autocompleteList (Some kept)
                           (set_query (inputText (st w)) c))) w)
               | Throw e => (Throw e, w1)
               end
           | None =>
               (Ret tt,
                with_st (fun c =>
                  set_noSuggestions (Some false)
                    (set_autocompleteList (Some [])
                       (set_query (inputText (st w)) c))) w)
           end.
Proof.
  unfold filterStoredItems. cbv beta iota delta [bind input gets modify ret throw].
  destruct (negb (displayItem_set (displayItem (cfg w)))
            && negb (bool_decide (is_Some (displayItemFn (cfg w))))); [done|].
  cbv zeta.
  change (query (st (with_st (set_query (inputText (st w))) w)))
    with (inputText (st w)).
  change (minChars (cfg (with_st (set_query (inputText (st w))) w)))
    with (minChars (cfg w)).
  destruct (strlen (inputText (st w)) <? minChars (cfg w)); [done|].
  change (storedItems (st (with_st (set_query (inputText (st w))) w)))
    with (storedItems (st w)).
  destruct (storedItems (st w)) as [items|]; [|done].
  rewrite (filterM_keepItem_eq items).
  by destruct (fst (filterM keepItem items _)).
Qed.

Lemma filterStoredItems_cases (w : World) : FilterRun w (filterStoredItems w).
Proof.
  rewrite filterStoredItems_unfold.
  destruct (negb (displayItem_set (displayItem (cfg w)))
            && negb (bool_decide (is_Some (displayItemFn (cfg w))))) eqn:D.
  { apply filter_unconfigured.
    apply andb_true_iff in D as [D1 D2].
    apply negb_true_iff in D1. apply negb_true_iff in D2.
    apply bool_decide_eq_false in D2.
    intros [?|?]; [congruence|done]. }
  cbv zeta.
  destruct (strlen (inputText (st w)) <? minChars (cfg w)) eqn:L.
  { apply filter_short. lia. }
  apply Z.ltb_ge in L.
  destruct (storedItems (st w)) as [items|].
  - destruct (fst (filterM keepItem items _)) as [kept|e];
      [|by apply filter_thrown].
    apply (filter_done w kept); [done|].
    rewrite andb_true_iff, Nat.eqb_eq, Z.gtb_ltb, Z.ltb_lt. unfold strlen.
    intros [Hq Hk]. split; [|by destruct kept].
    intros Eq. rewrite Eq in Hq. simpl in Hq. lia.
  - by apply (filter_done w [] false).
Qed.

(** C5. With a query shorter than [minChars] and no forcing, neither path
    invokes the service and [requestsInQueue] keeps its value; the local
    path leaves the candidate list as it was; the remote path, given a
    service, empties the list exactly when the query is empty and leaves
    it as it was otherwise (without a service it throws and changes
    nothing). *)
Theorem short_query_dispatches_nothing (w : World) :
  strlen (inputText (st w)) < minChars (cfg w) ->
  (let w' := snd (filterStoredItems w) in
   pending w' = pending w /\ nextTicket w' = nextTicket w
   /\ requestsInQueue (st w') = requestsInQueue (st w)
   /\ autocompleteList (st w') = autocompleteList (st w))
  /\ (let w' := snd (fetch false w) in
      pending w' = pending w /\ nextTicket w' = nextTicket w
      /\ requestsInQueue (st w') = requestsInQueue (st w)
      /\ autocompleteList (st w') =
           match service (st w) with
           | Some _ => if String.eqb (inputText (st w)) "" then Some []
                       else autocompleteList (st w)
           | None => autocompleteList (st w)
           end).
Proof.
  intros L. split.
  - destruct (filterStoredItems_cases w) as [D|_|e L'|kept n L' _]; simpl; try done; lia.
  - unfold fetch. cbv beta iota delta [bind gets modify input ret throw].
    destruct (service (st w)) as [s|]; simpl; [|done].
    rewrite isQueryEmpty_eqb.
    destruct (String.eqb (inputText (st w)) ""); simpl; [done|].
    assert ((strlen (inputText (st w)) >=? minChars (cfg w)) = false) as -> by lia.
    done.
Qed.

Lemma set_model_shape (w : World) (v : JsVal) :
  exists m em,
    snd (set_model v w) = with_emitted em (with_st (set_currentModel m) w).
Proof.
  destruct w as [c [] p n e]. unfold set_model.
  cbv beta iota delta [bind gets modify ret emit].
  cbn [st currentModel].
  destruct (strict_neq v currentModel0); [|by exists currentModel0, e].
  destruct (strict_eq v VNull || _); [by exists v, (e ++ [ModelChange v])|by exists v, e].
Qed.

(** [clearValue] writes the model, the value and the notifications, and
    with a form control the text of the input element, which it empties. *)
Lemma clearValue_shape (w : World) :
  exists m v em txt,
    snd (clearValue w)
    = with_emitted em
        (with_st (fun c => set_inputText txt
                             (set_value_field v (set_currentModel m c))) w)
    /\ (txt = inputText (st w) \/ txt = "").
Proof.
  destruct w as [c [] p n e]. unfold clearValue, reset_formControl.
  cbv beta iota delta [bind gets modify ret emit]. cbn [st formControlItem].
  destruct formControlItem0; cbv beta iota;
    match goal with
    | |- context [set_model VNull ?w1] =>
        rewrite (set_model_eq w1 VNull);
        destruct (set_model_shape w1 VNull) as (m & em & ->)
    end.
  - exists m, (VStr ""), (em ++ [ValueChange (VStr "")]), "".
    split; [reflexivity|by right].
  - exists m, (VStr ""), (em ++ [ValueChange (VStr "")]), inputText0.
    split; [reflexivity|by left].
Qed.

Lemma clearValue_doSearchViaService (w : World) :
  doSearchViaService (snd (clearValue w)) = doSearchViaService w.
Proof. by destruct (clearValue_shape w) as (m & v & em & txt & -> & _). Qed.

(** C6. The keystroke handler and the focus handler call [fetch] if and
    only if a service is configured and [doPrefetch] is false, and call
    [filterStoredItems] in every other configuration; in those no request
    reaches the service. The key handler applies the rule to every key that
    is not an arrow, after clearing an empty control. *)
Theorem handlers_choose_path (w : World) :
  let remote := bool_decide (is_Some (service (st w)) /\ doPrefetch (cfg w) = false) in
  onKeyCallback w = (if remote then fetch false w else filterStoredItems w)
  /\ onFocus w = (if remote then fetch false w else filterStoredItems w)
  /\ (forall k : Z,
        onKey k w =
          if (k <? 37) || (k >? 40)
          then (let w0 := if String.eqb (inputText (st w)) ""
                          then snd (clearValue w) else w in
                if remote then fetch false w0 else filterStoredItems w0)
          else (Ret tt, w))
  /\ (if remote then True
      else pending (snd (onKeyCallback w)) = pending w
           /\ pending (snd (onFocus w)) = pending w).
Proof.
  assert (doSearchViaService w
          = bool_decide (is_Some (service (st w)) /\ doPrefetch (cfg w) = false)) as E.
  { unfold doSearchViaService. apply eq_true_iff_eq.
    rewrite andb_true_iff, negb_true_iff, !bool_decide_eq_true. done. }
  simpl. unfold onKeyCallback, onFocus. rewrite E.
  split; [done|]. split; [done|]. split.
  - intros k. unfold onKey. destruct ((k <? 37) || (k >? 40)); [|done].
    cbv beta iota delta [bind gets]. unfold onKeyCallback.
    destruct (String.eqb (inputText (st w)) "").
    + rewrite clearValue_eq. cbv beta iota.
      by rewrite clearValue_doSearchViaService, E.
    + unfold ret. by rewrite E.
  - destruct (bool_decide _); [done|].
    by destruct (filterStoredItems_cases w).
Qed.

Lemma find_request_In (t : nat) (p : list Request) (r : Request) :
  find_request t p = Some r -> In r p /\ ticket r = t.
Proof.
  unfold find_request. intros F. apply find_some in F as [? E].
  by apply Nat.eqb_eq in E.
Qed.

(** C9. A prefetch leaves [requestsInQueue] at its value, in every state
    of the component: when it is dispatched, by [prefetch] or by
    [ngOnInit] (and with a service bound it is dispatched: one promise of
    a prefetch is added), and when its promise resolves. *)
Theorem prefetch_keeps_requestsInQueue (w : World) :
  requestsInQueue (st (snd (prefetch w))) = requestsInQueue (st w)
  /\ requestsInQueue (st (snd (ngOnInit w))) = requestsInQueue (st w)
  /\ (forall t r result,
        find_request t (pending w) = Some r -> kont r = KPrefetch ->
        requestsInQueue (st (step w (EResolve t result))) = requestsInQueue (st w))
  /\ (forall s, service (st w) = Some s ->
        exists r, pending (snd (prefetch w)) = pending w ++ [r]
                  /\ kont r = KPrefetch /\ ticket r = nextTicket w).
Proof.
  assert (requestsInQueue (st (snd (prefetch w))) = requestsInQueue (st w)) as P.
  { unfold prefetch. cbv beta iota delta [bind gets modify input throw dispatch].
    by destruct (service (st w)). }
  split; [done|]. split; [|split].
  - unfold ngOnInit. cbv beta iota delta [bind input ret].
    by destruct (doPrefetch (cfg w)).
  - intros t r result F K. unfold step. simpl. unfold resolve. rewrite F, K.
    unfold prefetch_then, saveReturnType.
    cbv beta iota delta [bind gets modify input ret]. simpl.
    by repeat (case_match; simpl).
  - intros s S. unfold prefetch.
    cbv beta iota delta [bind gets modify input throw dispatch]. rewrite S.
    eexists. split; [reflexivity|]. done.
Qed.

End Dispatch.

Lemma short_query_dispatches_nothing_witness :
  (let w' := snd (@filterStoredItems fruit_env world_short) in
   pending w' = pending world_short /\ nextTicket w' = nextTicket world_short
   /\ requestsInQueue (st w') = requestsInQueue (st world_short)
   /\ autocompleteList (st w') = autocompleteList (st world_short))
  /\ (let w' := snd (fetch false world_short) in
      pending w' = pending world_short /\ nextTicket w' = nextTicket world_short
      /\ requestsInQueue (st w') = requestsInQueue (st world_short)
      /\ autocompleteList (st w') =
           match service (st world_short) with
           | Some _ => if String.eqb (inputText (st world_short)) "" then Some []
                       else autocompleteList (st world_short)
           | None => autocompleteList (st world_short)
           end).
Proof.
  apply (@short_query_dispatches_nothing fruit_env world_short).
  vm_compute. reflexivity.
Defined.

Lemma prefetch_keeps_requestsInQueue_witness :
  requestsInQueue (st (snd (prefetch world_prefetching)))
    = requestsInQueue (st world_prefetching)
  /\ requestsInQueue (st (@step fruit_env world_prefetching (EResolve 0 fruits)))
     = requestsInQueue (st world_prefetching).
Proof.
  destruct (@prefetch_keeps_requestsInQueue fruit_env world_prefetching)
    as (A & _ & C & _).
  split; [exact A|].
  apply (C 0%nat {| ticket := 0; kont := KPrefetch; target := 7; params := ∅ |} fruits);
    reflexivity.
Defined.

(** ** Requests in flight *)

Section Requests.
Context `{JsEnv}.

Lemma fetch_unfold (force : bool) (w : World) :
  fetch force w =
    match service (st w) with
    | None => (Throw ErrFetchNoService, w)
    | Some s =>
        let txt := inputText (st w) in
        if String.eqb txt ""
        then (Ret tt, with_st (fun c => set_autocompleteList (Some []) (set_query txt c)) w)
        else if force || (strlen txt >=? minChars (cfg w))
             then dispatch s
                    (match serviceParams (cfg w) with
                     | Some p => <["query" := txt]> p
                     | None => <["query" := txt]> ∅
                     end) KFetch
                    (with_st (fun c => set_requestsInQueue (requestsInQueue c + 1)
                                         (set_noSuggestions (Some false)
                                            (set_query txt c))) w)
             else (Ret tt, with_st (set_query txt) w)
    end.
Proof.
  unfold fetch. cbv beta iota delta [bind gets modify input ret throw].
  destruct (service (st w)) as [s|]; [|done]. cbv zeta.
  change (query (st (with_st (set_query (inputText (st w))) w)))
    with (inputText (st w)).
  rewrite isQueryEmpty_eqb.
  destruct (String.eqb (inputText (st w)) ""); [done|].
  change (minChars (cfg (with_st (set_query (inputText (st w))) w)))
    with (minChars (cfg w)).
  destruct (force || (strlen (inputText (st w)) >=? minChars (cfg w))); [|done].
  change (serviceParams (cfg (with_st (set_query (inputText (st w))) w)))
    with (serviceParams (cfg w)).
  by destruct (serviceParams (cfg w)).
Qed.

Lemma prefetch_unfold (w : World) :
  prefetch w =
    match service (st w) with
    | None => (Throw ErrPrefetchNoService, w)
    | Some s =>
        dispatch s (match serviceParams (cfg w) with Some p => p | None => ∅ end)
          KPrefetch
          (with_st (fun c => set_noSuggestions (Some false)
                               (set_storedItems (Some []) c)) w)
    end.
Proof.
  unfold prefetch. cbv beta iota delta [bind gets modify input ret throw].
  by destruct (service (st w)).
Qed.

Lemma traffic_from (w0 w w' : World) :
  pending w0 = pending w -> nextTicket w0 = nextTicket w ->
  requestsInQueue (st w0) = requestsInQueue (st w) ->
  Traffic w0 w' -> Traffic w w'.
Proof.
  intros P N R [Hp Hn Hr|s p Hp Hn Hr|s p q Hp Hn Hr Hq Hne];
    rewrite P, ?N, ?R in *.
  - by apply traffic_quiet.
  - by apply (traffic_prefetch w w' s p).
  - by apply (traffic_fetch w w' s p q).
Qed.

Lemma fetch_traffic (force : bool) (w : World) : Traffic w (snd (fetch force w)).
Proof.
  rewrite fetch_unfold. destruct (service (st w)) as [s|]; [|by apply traffic_quiet].
  cbv zeta. destruct (String.eqb (inputText (st w)) "") eqn:E; [by apply traffic_quiet|].
  destruct (force || _); [|by apply traffic_quiet].
  apply String.eqb_neq in E.
  eapply (traffic_fetch _ _ s _ (inputText (st w))); try reflexivity; [|done].
  destruct (serviceParams (cfg w)); apply lookup_insert_eq.
Qed.

Lemma prefetch_traffic (w : World) : Traffic w (snd (prefetch w)).
Proof.
  rewrite prefetch_unfold. destruct (service (st w)) as [s|]; [|by apply traffic_quiet].
  by eapply (traffic_prefetch _ _ s).
Qed.

Lemma filterStoredItems_traffic (w : World) : Traffic w (snd (filterStoredItems w)).
Proof. destruct (filterStoredItems_cases w); by apply traffic_quiet. Qed.

Lemma onKeyCallback_traffic (w : World) : Traffic w (snd (onKeyCallback w)).
Proof.
  unfold onKeyCallback. destruct (doSearchViaService w);
    [apply fetch_traffic|apply filterStoredItems_traffic].
Qed.

Lemma autocompleteSelected_shape (w : World) (selected : JsVal) :
  exists m v em txt,
    snd (autocompleteSelected selected w)
    = with_emitted em
        (with_st (fun c => set_inputText txt
                             (set_value_field v
                                (set_currentModel m
                                   (set_query (inputText (st w)) c)))) w).
Proof.
  rewrite autocompleteSelected_run.
  set (w0 := with_st (set_query (inputText (st w))) w).
  destruct (set_model_shape (snd (set_value selected w0)) selected) as (m & em & ->).
  assert (exists em',
            (if truthy selected
             then snd (emit (OptionSelected selected)
                         (with_emitted em
                            (with_st (set_currentModel m) (snd (set_value selected w0)))))
             else with_emitted em
                    (with_st (set_currentModel m) (snd (set_value selected w0))))
            = with_emitted em'
                (with_st (fun c => set_inputText (inputText (st w))
                                     (set_value_field selected
                                        (set_currentModel m
                                           (set_query (inputText (st w)) c)))) w))
    as [em' ->].
  { destruct w as [c [] p n e]. destruct (truthy selected); eexists; reflexivity. }
  destruct (clearAfterSearch (cfg w)); [|eexists _, _, _, _; reflexivity].
  destruct (clearValue_shape
              (with_emitted em'
                 (with_st (fun c => set_inputText (inputText (st w))
                                      (set_value_field selected
                                         (set_currentModel m
                                            (set_query (inputText (st w)) c)))) w)))
    as (m' & v' & em'' & txt & -> & _).
  eexists _, _, _, _; reflexivity.
Qed.

Lemma onKey_unfold (k : Z) (w : World) :
  onKey k w =
    if (k <? 37) || (k >? 40)
    then onKeyCallback (if String.eqb (inputText (st w)) "" then snd (clearValue w) else w)
    else (Ret tt, w).
Proof.
  unfold onKey. destruct ((k <? 37) || (k >? 40)); [|done].
  cbv beta iota delta [bind gets].
  destruct (String.eqb (inputText (st w)) ""); [|done].
  by rewrite clearValue_eq.
Qed.

(** Apart from the settling of a promise, a turn makes at most one
    request. *)
Lemma step_traffic (w : World) (e : Event) :
  (forall t result, e <> EResolve t result) -> (forall t, e <> EReject t) ->
  Traffic w (step w e).
Proof.
  intros NR NJ. unfold step. destruct e; simpl handle;
    try (by apply traffic_quiet).
  - destruct v as [s|[|x items]]; by apply traffic_quiet.
  - destruct (set_model_shape w v) as (m & em & ->). by apply traffic_quiet.
  - unfold ngOnInit. cbv beta iota delta [bind input ret].
    destruct (doPrefetch (cfg w)); [apply prefetch_traffic|by apply traffic_quiet].
  - apply prefetch_traffic.
  - apply fetch_traffic.
  - apply filterStoredItems_traffic.
  - destruct (autocompleteSelected_shape w v) as (m & v' & em & txt & ->).
    by apply traffic_quiet.
  - rewrite onKey_unfold. destruct ((keyCode <? 37) || (keyCode >? 40));
      [|by apply traffic_quiet].
    destruct (String.eqb (inputText (st w)) ""); [|apply onKeyCallback_traffic].
    destruct (clearValue_shape w) as (m & v & em & txt & -> & Txt).
    eapply traffic_from; [| | |apply onKeyCallback_traffic]; done.
  - apply onKeyCallback_traffic.
  - apply onKeyCallback_traffic.
  - destruct (clearValue_shape w) as (m & v & em & txt & -> & Txt). by apply traffic_quiet.
  - by destruct (NR t result).
  - by destruct (NJ t).
Qed.

Lemma filter_fresh_nil (n : nat) (l : list Request) :
  Forall (fun r => (ticket r < n)%nat) l ->
  List.filter (fun r => (n <=? ticket r)%nat) l = [].
Proof.
  induction 1 as [|r l Hr _ IH]; simpl; [done|].
  apply Nat.leb_gt in Hr. by rewrite Hr.
Qed.

Lemma find_request_None_remove (t : nat) (p : list Request) :
  find_request t p = None -> remove_request t p = p.
Proof.
  unfold find_request, remove_request.
  induction p as [|r p IH]; simpl; [done|].
  destruct (Nat.eqb (ticket r) t); simpl; [done|].
  intros F. by rewrite IH.
Qed.

Lemma remove_request_absent (t : nat) (p : list Request) :
  t ∉ map ticket p -> remove_request t p = p.
Proof.
  unfold remove_request. induction p as [|r p IH]; simpl; [done|].
  intros N. apply not_elem_of_cons in N as [N1 N2].
  assert (Nat.eqb (ticket r) t = false) as -> by (apply Nat.eqb_neq; congruence).
  simpl. by rewrite IH.
Qed.

(** A ticket names one request, so settling it takes exactly that request
    out of flight. *)
Lemma remove_request_count (t : nat) (p : list Request) (r : Request) :
  NoDup (map ticket p) ->
  find_request t p = Some r ->
  (length (List.filter is_fetch (remove_request t p)) + Nat.b2n (is_fetch r)
   = length (List.filter is_fetch p))%nat.
Proof.
  unfold find_request.
  induction p as [|x p IH]; simpl; [done|].
  intros ND F. apply NoDup_cons in ND as [Nx ND].
  destruct (Nat.eqb (ticket x) t) eqn:E; simpl.
  - injection F as ->. apply Nat.eqb_eq in E. subst t.
    fold (remove_request (ticket r) p). rewrite (remove_request_absent _ _ Nx).
    destruct (is_fetch r); simpl; lia.
  - fold (remove_request t p). specialize (IH ND F).
    destruct (is_fetch x); simpl; lia.
Qed.

Lemma remove_request_Tickets (t n : nat) (p : list Request) :
  Forall (fun r => (ticket r < n)%nat) p /\ NoDup (map ticket p) ->
  Forall (fun r => (ticket r < n)%nat) (remove_request t p)
  /\ NoDup (map ticket (remove_request t p)).
Proof.
  unfold remove_request. intros [F ND]. induction p as [|x p IH]; simpl; [done|].
  apply Forall_cons in F as [Fx F]. simpl in ND. apply NoDup_cons in ND as [Nx ND].
  destruct (IH F ND) as [F' ND'].
  destruct (negb (Nat.eqb (ticket x) t)); [|done].
  split; [by apply Forall_cons|]. simpl. apply NoDup_cons. split; [|done].
  rewrite list_elem_of_In, in_map_iff. intros (y & Ey & Hy).
  apply filter_In in Hy as [Hy _]. apply Nx.
  rewrite list_elem_of_In, in_map_iff. by exists y.
Qed.

(** What the settling of a promise does to the requests and the counter. *)
Lemma resolve_found (w : World) (t : nat) (r : Request) (result : list JsVal) :
  find_request t (pending w) = Some r ->
  let w' := step w (EResolve t result) in
  pending w' = remove_request t (pending w)
  /\ nextTicket w' = nextTicket w
  /\ cfg w' = cfg w
  /\ requestsInQueue (st w')
     = requestsInQueue (st w) - (if is_fetch r then 1 else 0)
  /\ noSuggestions (st w') = Some (Nat.eqb (length result) 0)
  /\ returnType (st w')
     = match filterCallback (cfg w) result with
       | Some (x :: _) => Some (typeof x)
       | _ => returnType (st w)
       end.
Proof.
  intros F. unfold step. simpl handle. unfold resolve. rewrite F.
  unfold is_fetch, prefetch_then, fetch_then, saveReturnType.
  cbv beta iota delta [bind gets modify input ret].
  destruct (kont r); simpl;
    destruct (filterCallback (cfg w) result) as [[|x l]|]; simpl;
    repeat split; lia.
Qed.

Lemma resolve_missing (w : World) (t : nat) (result : list JsVal) :
  find_request t (pending w) = None -> step w (EResolve t result) = w.
Proof. intros F. unfold step. simpl handle. unfold resolve. by rewrite F. Qed.

Lemma Tickets_append (w : World) (r : Request) (l : list Request) :
  Tickets w -> l = pending w ++ [r] -> ticket r = nextTicket w ->
  Forall (fun x => (ticket x < S (nextTicket w))%nat) l /\ NoDup (map ticket l).
Proof.
  intros [F ND] -> T. split.
  - apply Forall_app. split.
    + eapply Forall_impl; [exact F|]. simpl. lia.
    + apply Forall_singleton. lia.
  - rewrite map_app. apply NoDup_app. split; [done|]. split.
    + intros x Hx Hx'. simpl in Hx'. apply list_elem_of_singleton in Hx'. subst x.
      apply list_elem_of_In, in_map_iff in Hx as (y & Ey & Hy).
      rewrite Forall_forall in F. apply list_elem_of_In in Hy.
      specialize (F y Hy). lia.
    + simpl. apply NoDup_singleton.
Qed.

(** One turn: the counter moves by the fetches dispatched and resolved, and
    the fetches in flight by those dispatched and settled. *)
Lemma step_balance (w : World) (e : Event) :
  Tickets w ->
  Tickets (step w e)
  /\ requestsInQueue (st (step w e))
     = requestsInQueue (st w) + Z.of_nat (dispatches_fetch w e)
       - Z.of_nat (Nat.b2n (resolves_fetch w e))
  /\ (fetches_in_flight (step w e) + Nat.b2n (resolves_fetch w e)
      + Nat.b2n (rejects_fetch w e)
      = fetches_in_flight w + dispatches_fetch w e)%nat.
Proof.
  intros T.
  destruct (match e with EResolve _ _ | EReject _ => true | _ => false end) eqn:K.
  - destruct e; try discriminate K.
    + (* a promise resolves *)
      unfold dispatches_fetch, issued, fetches_in_flight, resolves_fetch, rejects_fetch.
      destruct (find_request t (pending w)) as [r|] eqn:F.
      * destruct (resolve_found w t r result F) as (P & N & _ & R & _).
        pose proof (remove_request_Tickets t (nextTicket w) (pending w) T) as T'.
        rewrite P. split; [unfold Tickets; by rewrite P, N|].
        rewrite (filter_fresh_nil _ _ (proj1 T')). simpl.
        pose proof (remove_request_count t (pending w) r (proj2 T) F).
        split; [rewrite R; destruct (is_fetch r); simpl; lia|lia].
      * rewrite (resolve_missing w t result F). split; [done|].
        rewrite (filter_fresh_nil _ _ (proj1 T)). simpl. lia.
    + (* a promise is rejected *)
      unfold dispatches_fetch, issued, fetches_in_flight, resolves_fetch, rejects_fetch.
      unfold step. simpl.
      pose proof (remove_request_Tickets t (nextTicket w) (pending w) T) as T'.
      split; [done|]. rewrite (filter_fresh_nil _ _ (proj1 T')). simpl.
      destruct (find_request t (pending w)) as [r|] eqn:F.
      * pose proof (remove_request_count t (pending w) r (proj2 T) F). lia.
      * rewrite (find_request_None_remove _ _ F). simpl. lia.
  - assert (resolves_fetch w e = false) as -> by (by destruct e).
    assert (rejects_fetch w e = false) as -> by (by destruct e).
    unfold dispatches_fetch, issued, fetches_in_flight. simpl Nat.b2n.
    destruct (step_traffic w e) as [P N R|s p P N R|s p q P N R _ _];
      [by destruct e|by destruct e| | |].
    + rewrite P, R. split; [unfold Tickets; by rewrite P, N|].
      rewrite (filter_fresh_nil _ _ (proj1 T)). simpl. lia.
    + destruct (Tickets_append w _ _ T P eq_refl) as [F ND].
      split; [unfold Tickets; by rewrite N|].
      rewrite P, R, !List.filter_app, (filter_fresh_nil _ _ (proj1 T)). simpl.
      rewrite Nat.leb_refl. simpl. rewrite length_app. simpl. lia.
    + destruct (Tickets_append w _ _ T P eq_refl) as [F ND].
      split; [unfold Tickets; by rewrite N|].
      rewrite P, R, !List.filter_app, (filter_fresh_nil _ _ (proj1 T)). simpl.
      rewrite Nat.leb_refl. simpl. rewrite length_app. simpl. lia.
Qed.

Lemma run_cons (w : World) (e : Event) (tr : list Event) :
  run w (e :: tr) = run (step w e) tr.
Proof. reflexivity. Qed.

(** A run: the same balance, summed over its turns. *)
Lemma run_balance (tr : list Event) (w : World) :
  Tickets w ->
  Tickets (run w tr)
  /\ requestsInQueue (st (run w tr))
     = requestsInQueue (st w) + Z.of_nat (dispatched w tr) - Z.of_nat (resolved w tr)
  /\ (fetches_in_flight (run w tr) + resolved w tr + rejected w tr
      = fetches_in_flight w + dispatched w tr)%nat.
Proof.
  revert w. induction tr as [|e tr IH]; intros w T.
  - unfold dispatched, resolved, rejected. simpl. split; [done|]. lia.
  - destruct (step_balance w e T) as (T1 & R1 & F1).
    destruct (IH (step w e) T1) as (T2 & R2 & F2).
    rewrite run_cons. unfold dispatched, resolved, rejected in *.
    simpl total. split; [done|]. lia.
Qed.

Lemma init_Tickets (i : Inputs) : Tickets (init i).
Proof. split; [apply Forall_nil_2|apply NoDup_nil_2]. Qed.

Lemma passes_gate_dispatches (force : bool) (w : World) :
  Tickets w -> passes_gate force w = true ->
  dispatches_fetch w (EFetch force) = 1%nat
  /\ requestsInQueue (st (step w (EFetch force))) = requestsInQueue (st w) + 1.
Proof.
  intros T G. unfold passes_gate in G.
  apply andb_true_iff in G as [G G3]. apply andb_true_iff in G as [G1 G2].
  apply bool_decide_eq_true in G1 as [s G1].
  rewrite isQueryEmpty_eqb in G2. apply negb_true_iff in G2.
  unfold dispatches_fetch, issued, step. simpl handle.
  rewrite fetch_unfold, G1. cbv zeta. rewrite G2, G3. simpl.
  rewrite !List.filter_app, (filter_fresh_nil _ _ (proj1 T)). simpl.
  by rewrite Nat.leb_refl.
Qed.

(** C1. Along every run of a fresh component, whatever the order in which
    promises settle: [requestsInQueue] is the number of fetches dispatched
    minus the number of fetches completed, it is never negative, it counts
    the fetches in flight plus the rejected ones, and it is back to 0 once
    every dispatched fetch has resolved. A [fetch] that passes the gating
    check adds one, the completion of a fetch in flight removes one. *)
Theorem requestsInQueue_balance (i : Inputs) (tr : list Event) :
  let w := run (init i) tr in
  requestsInQueue (st w)
    = Z.of_nat (dispatched (init i) tr) - Z.of_nat (resolved (init i) tr)
  /\ 0 <= requestsInQueue (st w)
  /\ requestsInQueue (st w)
     = Z.of_nat (fetches_in_flight w) + Z.of_nat (rejected (init i) tr)
  /\ (resolved (init i) tr = dispatched (init i) tr -> requestsInQueue (st w) = 0)
  /\ (forall force, passes_gate force w = true ->
        dispatches_fetch w (EFetch force) = 1%nat
        /\ requestsInQueue (st (step w (EFetch force))) = requestsInQueue (st w) + 1)
  /\ (forall t r result,
        find_request t (pending w) = Some r -> kont r = KFetch ->
        resolves_fetch w (EResolve t result) = true
        /\ requestsInQueue (st (step w (EResolve t result)))
           = requestsInQueue (st w) - 1).
Proof.
  destruct (run_balance tr (init i) (init_Tickets i)) as (T & R & F).
  change (requestsInQueue (st (init i))) with 0 in R.
  change (fetches_in_flight (init i)) with 0%nat in F.
  cbv zeta. split; [lia|]. split; [lia|]. split; [lia|]. split; [lia|]. split.
  - intros force G. by apply passes_gate_dispatches.
  - intros t r result Fr K.
    assert (is_fetch r = true) as Hf by (by apply bool_decide_eq_true).
    split; [simpl; by rewrite Fr|].
    destruct (resolve_found _ t r result Fr) as (_ & _ & _ & Rq & _).
    by rewrite Rq, Hf.
Qed.

End Requests.

(** ** The empty flag and the cached kind along a run *)

Section Flags.
Context `{JsEnv}.

(** What [fetch] does to the empty flag and the cached kind. *)
Lemma fetch_flags (force : bool) (w : World) :
  let w' := snd (fetch force w) in
  returnType (st w') = returnType (st w)
  /\ (noSuggestions (st w') = Some true -> noSuggestions (st w) = Some true).
Proof.
  rewrite fetch_unfold. destruct (service (st w)); [|done]. cbv zeta.
  destruct (String.eqb (inputText (st w)) ""); [done|].
  by destruct (force || _).
Qed.

Lemma prefetch_flags (w : World) :
  let w' := snd (prefetch w) in
  returnType (st w') = returnType (st w)
  /\ (noSuggestions (st w') = Some true -> noSuggestions (st w) = Some true).
Proof. rewrite prefetch_unfold. by destruct (service (st w)). Qed.

(** A call of [filterStoredItems], seen from the world [w] of the turn it
    happens in: the turn completes a filtering exactly when the call
    returns past the length check, and only then can it raise the flag. *)
Lemma filter_flags (w w0 : World) :
  cfg w0 = cfg w -> inputText (st w0) = inputText (st w) ->
  returnType (st w0) = returnType (st w) ->
  noSuggestions (st w0) = noSuggestions (st w) ->
  let o := filterStoredItems w0 in
  let done := (match fst o with Ret _ => true | Throw _ => false end)
              && (minChars (cfg w) <=? strlen (inputText (st w))) in
  returnType (st (snd o)) = returnType (st w)
  /\ (noSuggestions (st (snd o)) = Some true ->
      match (if done
             then Some (DoneFilter (inputText (st w))
                          (length (default [] (autocompleteList (st (snd o))))))
             else None) with
      | Some c => empty_for_query c
      | None => noSuggestions (st w) = Some true
      end).
Proof.
  intros C I R N. cbv zeta.
  destruct (filterStoredItems_cases w0) as [D|L|e L|kept n L E];
    rewrite ?C, ?I in *; simpl; try (split; [done|]; by rewrite N).
  - assert ((minChars (cfg w) <=? strlen (inputText (st w))) = false) as -> by lia.
    split; [done|]. by rewrite N.
  - assert ((minChars (cfg w) <=? strlen (inputText (st w))) = true) as -> by lia.
    split; [done|]. intros [= ->]. by destruct E as [E ->].
Qed.

Lemma onKeyCallback_flags (w w0 : World) :
  cfg w0 = cfg w -> inputText (st w0) = inputText (st w) ->
  returnType (st w0) = returnType (st w) ->
  noSuggestions (st w0) = noSuggestions (st w) ->
  service (st w0) = service (st w) ->
  let o := onKeyCallback w0 in
  let done := negb (doSearchViaService w)
              && (match fst o with Ret _ => true | Throw _ => false end)
              && (minChars (cfg w) <=? strlen (inputText (st w))) in
  returnType (st (snd o)) = returnType (st w)
  /\ (noSuggestions (st (snd o)) = Some true ->
      match (if done
             then Some (DoneFilter (inputText (st w))
                          (length (default [] (autocompleteList (st (snd o))))))
             else None) with
      | Some c => empty_for_query c
      | None => noSuggestions (st w) = Some true
      end).
Proof.
  intros C I R N S. cbv zeta. unfold onKeyCallback.
  assert (doSearchViaService w0 = doSearchViaService w) as ->
    by (unfold doSearchViaService; by rewrite C, S).
  destruct (doSearchViaService w); simpl negb; cbn [andb].
  - destruct (fetch_flags false w0) as [R' N']. simpl in R', N'.
    rewrite R', R. split; [done|]. intros E. rewrite <- N. by apply N'.
  - by apply filter_flags.
Qed.

(** One turn that is not the settling of a promise. *)
Lemma step_flags (w : World) (e : Event) :
  (forall t result, e <> EResolve t result) -> (forall t, e <> EReject t) ->
  returnType (st (step w e))
  = match obtained w e with
    | Some (x :: _) => Some (typeof x)
    | _ => returnType (st w)
    end
  /\ (noSuggestions (st (step w e)) = Some true ->
      match completes w e with
      | Some c => empty_for_query c
      | None => noSuggestions (st w) = Some true
      end).
Proof.
  intros NR NJ. unfold completes, returned, step.
  destruct e; try solve [by destruct (NR t result) | by destruct (NJ t)];
    simpl handle; simpl obtained; simpl local_call; cbn [andb];
    try done.
  - destruct v as [s|[|x items]]; done.
  - by destruct (set_model_shape w v) as (m & em & ->).
  - unfold ngOnInit. cbv beta iota delta [bind input ret].
    destruct (doPrefetch (cfg w)); [apply prefetch_flags|done].
  - apply prefetch_flags.
  - apply fetch_flags.
  - by apply (filter_flags w w).
  - by destruct (autocompleteSelected_shape w v) as (m & v' & em & txt & ->).
  - rewrite onKey_unfold. destruct ((keyCode <? 37) || (keyCode >? 40)); cbn [andb];
      [|done].
    destruct (String.eqb (inputText (st w)) "") eqn:E.
    + apply String.eqb_eq in E.
      destruct (clearValue_shape w) as (m & v & em & txt & -> & Txt).
      apply (onKeyCallback_flags w); try done.
      simpl. destruct Txt as [->| ->]; [done|by rewrite E].
    + by apply (onKeyCallback_flags w w).
  - by apply (onKeyCallback_flags w w).
  - by apply (onKeyCallback_flags w w).
  - by destruct (clearValue_shape w) as (m & v & em & txt & -> & Txt).
Qed.

Lemma remove_request_Forall (P : Request -> Prop) (t : nat) (p : list Request) :
  Forall P p -> Forall P (remove_request t p).
Proof.
  unfold remove_request. induction 1 as [|x p Hx _ IH]; simpl; [done|].
  destruct (negb (Nat.eqb (ticket x) t)); [by apply Forall_cons|done].
Qed.

Lemma step_FetchQueries (w : World) (e : Event) :
  FetchQueries w -> FetchQueries (step w e).
Proof.
  unfold FetchQueries. intros Q.
  destruct (match e with EResolve _ _ | EReject _ => true | _ => false end) eqn:K.
  - destruct e; try discriminate K.
    + destruct (find_request t (pending w)) as [r|] eqn:F.
      * destruct (resolve_found w t r result F) as (-> & _).
        by apply remove_request_Forall.
      * by rewrite (resolve_missing w t result F).
    + unfold step. simpl. by apply remove_request_Forall.
  - destruct (step_traffic w e) as [P _ _|s p P _ _|s p q P _ _ Hq Hne];
      [by destruct e|by destruct e| | |]; rewrite P; [done| |].
    + apply Forall_app. split; [done|]. by apply Forall_singleton.
    + apply Forall_app. split; [done|]. apply Forall_singleton.
      intros _. by exists q.
Qed.

(** One turn, whatever it is: the flag can only be raised by a search that
    completes in this turn and comes back empty. *)
Lemma step_noSuggestions (w : World) (e : Event) :
  FetchQueries w ->
  noSuggestions (st (step w e)) = Some true ->
  match completes w e with
  | Some c => empty_for_query c \/ c = DonePrefetch 0
  | None => noSuggestions (st w) = Some true
  end.
Proof.
  intros Q N.
  destruct (match e with EResolve _ _ | EReject _ => true | _ => false end) eqn:K.
  - destruct e; try discriminate K.
    + unfold completes. destruct (find_request t (pending w)) as [r|] eqn:F.
      * destruct (resolve_found w t r result F) as (_ & _ & _ & _ & N' & _).
        rewrite N' in N. injection N as N. apply Nat.eqb_eq in N. rewrite N.
        destruct (kont r) eqn:Kr; [by right|left].
        apply find_request_In in F as [F _]. apply list_elem_of_In in F.
        unfold FetchQueries in Q. rewrite Forall_forall in Q.
        destruct (Q r F Kr) as (q & -> & Hq). done.
      * by rewrite (resolve_missing w t result F) in N.
    + done.
  - destruct (step_flags w e) as [_ S]; [by destruct e|by destruct e|].
    specialize (S N). destruct (completes w e); [by left|done].
Qed.

(** The flag and the last completed search, along a run. *)
Lemma run_noSuggestions (tr : list Event) (w : World) (acc : option Completed) :
  FetchQueries w ->
  (noSuggestions (st w) = Some true ->
   exists c, acc = Some c /\ (empty_for_query c \/ c = DonePrefetch 0)) ->
  noSuggestions (st (run w tr)) = Some true ->
  exists c, last_completed acc w tr = Some c
            /\ (empty_for_query c \/ c = DonePrefetch 0).
Proof.
  revert w acc. induction tr as [|e tr IH]; intros w acc Q I N; [by apply I|].
  rewrite run_cons in N. simpl last_completed.
  apply IH; [by apply step_FetchQueries| |done].
  intros N'. pose proof (step_noSuggestions w e Q N') as S.
  destruct (completes w e) as [c|]; [by exists c|by apply I].
Qed.

(** C7 (amended). In every state a fresh component can reach,
    [noSuggestions] is true only when the most recently completed search
    was a fetch or a local filtering that returned nothing for a query that
    is not empty, or a prefetch (which sends no query) that returned
    nothing. For a fetch and a prefetch "nothing" is counted on the raw
    result, before [filterCallback]. *)
Theorem noSuggestions_only_after_empty_search (i : Inputs) (tr : list Event) :
  noSuggestions (st (run (init i) tr)) = Some true ->
  exists c, last_completed None (init i) tr = Some c
            /\ (empty_for_query c \/ c = DonePrefetch 0).
Proof.
  apply run_noSuggestions; [apply Forall_nil_2|discriminate].
Qed.

(** One turn, whatever it is: the cached kind follows the list obtained. *)
Lemma step_returnType (w : World) (e : Event) :
  returnType (st (step w e))
  = match obtained w e with
    | Some (x :: _) => Some (typeof x)
    | _ => returnType (st w)
    end.
Proof.
  destruct (match e with EResolve _ _ | EReject _ => true | _ => false end) eqn:K.
  - destruct e; try discriminate K; [|done].
    unfold obtained. destruct (find_request t (pending w)) as [r|] eqn:F.
    + by destruct (resolve_found w t r result F) as (_ & _ & _ & _ & _ & ->).
    + by rewrite (resolve_missing w t result F).
  - by destruct (step_flags w e) as [-> _]; [by destruct e|by destruct e|].
Qed.

Lemma kinds_cons (l : list JsVal) (ls : list (list JsVal)) :
  kinds (l :: ls)
  = match l with
    | x :: _ => typeof x :: kinds ls
    | [] => kinds ls
    end.
Proof. by destruct l. Qed.

Lemma run_returnType (tr : list Event) (w : World) :
  returnType (st (run w tr))
  = match last (kinds (lists_obtained w tr)) with
    | Some k => Some k
    | None => returnType (st w)
    end.
Proof.
  revert w. induction tr as [|e tr IH]; intros w; [done|].
  rewrite run_cons, IH, step_returnType. simpl lists_obtained.
  destruct (obtained w e) as [[|x l]|]; rewrite ?kinds_cons; try done.
  rewrite last_cons. by destruct (last (kinds (lists_obtained (step w e) tr))).
Qed.

(** C8 (amended). The cached kind is the runtime type of the first element
    of the most recent non-empty candidate list obtained (by source
    assignment, prefetch or fetch): every non-empty list overwrites it, an
    empty list leaves it as it was, and it is undefined until a non-empty
    list has been obtained. *)
Theorem returnType_is_last_kind (i : Inputs) (tr : list Event) :
  returnType (st (run (init i) tr)) = last (kinds (lists_obtained (init i) tr)).
Proof.
  rewrite run_returnType. by destruct (last (kinds (lists_obtained (init i) tr))).
Qed.

End Flags.

Lemma noSuggestions_only_after_empty_search_witness :
  exists c, @last_completed fruit_env None (init fruit_inputs) trace_empty_fetch = Some c
            /\ (empty_for_query c \/ c = DonePrefetch 0).
Proof.
  apply (@noSuggestions_only_after_empty_search fruit_env fruit_inputs trace_empty_fetch).
  vm_compute. reflexivity.
Defined.

(** C7 as stated fails. A component that prefetches is initialised and the
    service answers with no result: the flag is raised although the query
    is empty and the search that completed last is the prefetch, not a
    fetch or a filtering for a query that is not empty. *)
Lemma noSuggestions_prefetch_counterexample :
  let w := @run fruit_env (init prefetch_inputs) trace_empty_prefetch in
  noSuggestions (st w) = Some true
  /\ query (st w) = ""
  /\ @last_completed fruit_env None (init prefetch_inputs) trace_empty_prefetch
     = Some (DonePrefetch 0)
  /\ ~ (exists c,
          @last_completed fruit_env None (init prefetch_inputs) trace_empty_prefetch
          = Some c
          /\ empty_for_query c).
Proof.
  assert (@last_completed fruit_env None (init prefetch_inputs) trace_empty_prefetch
          = Some (DonePrefetch 0)) as L by (vm_compute; reflexivity).
  cbv zeta. split; [vm_compute; reflexivity|]. split; [vm_compute; reflexivity|].
  split; [exact L|].
  intros (c & L' & E). rewrite L in L'. injection L' as <-. exact E.
Qed.

(** C8 as stated fails. A list of strings is bound to [source] and the kind
    "string" is cached; a list of objects is bound next and the cached
    kind becomes "object", not the kind recorded from the first list. *)
Lemma returnType_first_list_counterexample :
  let w1 := @run fruit_env (init default_inputs) (take 1 trace_two_sources) in
  let w2 := @run fruit_env (init default_inputs) trace_two_sources in
  @lists_obtained fruit_env (init default_inputs) trace_two_sources
  = [[VStr "a"]; [VObj 1]]
  /\ returnType (st w1) = Some "string"
  /\ returnType (st w2) = Some "object"
  /\ returnType (st w2)
     <> head (kinds (@lists_obtained fruit_env (init default_inputs) trace_two_sources)).
Proof.
  cbv zeta. split; [reflexivity|]. split; [reflexivity|]. split; [reflexivity|].
  vm_compute. discriminate.
Qed.

(** ** The scenarios of the specification *)

(** Local source of three fruits, [minChars] 2: "Ap" keeps Apple and
    Apricot. *)
Example scenario_local_Ap :
  let w := @run fruit_env (init fruit_inputs)
             [ESetSource (SrcArray fruits); EInputText "Ap"; EOnKey 80] in
  autocompleteList (st w) = Some [VObj 1; VObj 2]
  /\ noSuggestions (st w) = Some false.
Proof. vm_compute. done. Qed.

(** "z" is too short: the list and the flag stay as they were. *)
Example scenario_local_z :
  let w0 := @run fruit_env (init fruit_inputs)
              [ESetSource (SrcArray fruits); EInputText "Ap"; EOnKey 80] in
  let w := @run fruit_env w0 [EInputText "z"; EOnKey 90] in
  autocompleteList (st w) = autocompleteList (st w0)
  /\ noSuggestions (st w) = noSuggestions (st w0).
Proof. vm_compute. done. Qed.

(** The service returns nothing for "xyz". *)
Example scenario_remote_empty :
  let w := @run fruit_env (init fruit_inputs) trace_empty_fetch in
  autocompleteList (st w) = Some []
  /\ noSuggestions (st w) = Some true
  /\ requestsInQueue (st w) = 0.
Proof. vm_compute. done. Qed.

(** Two overlapping fetches: the one that completes last wins, and the
    counter goes 1, 2, 1, 0. *)
Example scenario_overlap :
  let w := @run fruit_env (init one_char_inputs) trace_overlap in
  autocompleteList (st w) = Some [VObj 1; VObj 2]
  /\ query (st w) = "ab"
  /\ requestsInQueue (st w) = 0
  /\ requestsInQueue (st (@run fruit_env (init one_char_inputs) (take 5 trace_overlap))) = 2
  /\ requestsInQueue (st (@run fruit_env (init one_char_inputs) (take 6 trace_overlap))) = 1.
Proof. vm_compute. done. Qed.

(** ** Further properties of the remote path *)

Section RemotePath.
Context `{JsEnv}.

Lemma passes_gate_inv (force : bool) (w : World) :
  passes_gate force w = true ->
  (exists s, service (st w) = Some s)
  /\ String.eqb (inputText (st w)) "" = false
  /\ force || (strlen (inputText (st w)) >=? minChars (cfg w)) = true.
Proof.
  unfold passes_gate. rewrite !andb_true_iff, bool_decide_eq_true, negb_true_iff.
  rewrite isQueryEmpty_eqb. by intros [[[s ?] ?] ?]; split; [exists s|].
Qed.

(** X1. A [fetch] that passes the gating check calls the service once, with
    a parameter bag in which [query] is the text of the input element and
    every other key is as in [serviceParams]; a [query] key of
    [serviceParams] is overridden. *)
Theorem fetch_request_params (force : bool) (w : World) :
  passes_gate force w = true ->
  exists s p,
    service (st w) = Some s
    /\ fetch force w
       = (Ret tt,
          snd (dispatch s p KFetch
                 (with_st (fun c => set_requestsInQueue (requestsInQueue c + 1)
                                      (set_noSuggestions (Some false)
                                         (set_query (inputText (st w)) c))) w)))
    /\ pending (snd (fetch force w))
       = pending w ++ [{| ticket := nextTicket w; kont := KFetch;
                          target := s; params := p |}]
    /\ p !! "query" = Some (inputText (st w))
    /\ (forall k, k <> "query" ->
          p !! k = match serviceParams (cfg w) with
                   | Some base => base !! k
                   | None => None
                   end).
Proof.
  intros G. destruct (passes_gate_inv force w G) as ([s S] & E & F).
  rewrite fetch_unfold, S. cbv zeta. rewrite E, F.
  exists s. eexists. split; [done|]. split; [reflexivity|]. split; [reflexivity|].
  destruct (serviceParams (cfg w)) as [base|].
  - split; [apply lookup_insert_eq|]. intros k Hk. by apply lookup_insert_ne.
  - split; [apply lookup_insert_eq|]. intros k Hk.
    rewrite lookup_insert_ne by done. apply lookup_empty.
Qed.

(** X2. Forcing skips the length check and nothing else. With a service, a
    forced [fetch] on an empty text makes no request and empties the
    candidate list, leaving the empty flag as it was; on any other text it
    makes a request however short the text is, keeps the candidate list
    that is on display and lowers the empty flag. *)
Theorem fetch_forced (w : World) (s : nat) :
  service (st w) = Some s ->
  let w' := snd (fetch true w) in
  fst (fetch true w) = Ret tt
  /\ query (st w') = inputText (st w)
  /\ (if String.eqb (inputText (st w)) ""
      then pending w' = pending w
           /\ requestsInQueue (st w') = requestsInQueue (st w)
           /\ autocompleteList (st w') = Some []
           /\ noSuggestions (st w') = noSuggestions (st w)
      else length (pending w') = S (length (pending w))
           /\ requestsInQueue (st w') = requestsInQueue (st w) + 1
           /\ autocompleteList (st w') = autocompleteList (st w)
           /\ noSuggestions (st w') = Some false).
Proof.
  intros S. rewrite fetch_unfold, S. cbv zeta.
  destruct (String.eqb (inputText (st w)) ""); simpl; [done|].
  rewrite length_app. simpl. repeat split; lia.
Qed.

(** X3. When [doPrefetch] is set and a service is bound, [ngOnInit] calls
    the service once with [serviceParams] as they are (no [query] is
    added), empties the stored collection and lowers the empty flag; the
    candidate list on display and the request counter are not touched, and
    from then on the handlers search the stored collection. *)
Theorem ngOnInit_prefetches (w : World) (s : nat) :
  doPrefetch (cfg w) = true ->
  service (st w) = Some s ->
  let w' := snd (ngOnInit w) in
  fst (ngOnInit w) = Ret tt
  /\ pending w'
     = pending w ++ [{| ticket := nextTicket w; kont := KPrefetch; target := s;
                        params := match serviceParams (cfg w) with
                                  | Some base => base
                                  | None => ∅
                                  end |}]
  /\ storedItems (st w') = Some []
  /\ noSuggestions (st w') = Some false
  /\ autocompleteList (st w') = autocompleteList (st w)
  /\ requestsInQueue (st w') = requestsInQueue (st w)
  /\ doSearchViaService w' = false.
Proof.
  intros P S. unfold ngOnInit. cbv beta iota delta [bind input]. rewrite P.
  rewrite prefetch_unfold, S. simpl. repeat split; try done.
  unfold doSearchViaService. simpl. by rewrite P, andb_false_r.
Qed.

Lemma find_request_removed (t : nat) (p : list Request) :
  find_request t (remove_request t p) = None.
Proof.
  unfold find_request, remove_request. induction p as [|r p IH]; simpl; [done|].
  destruct (Nat.eqb (ticket r) t) eqn:E; simpl; [done|]. by rewrite E.
Qed.

Lemma find_request_other (t t' : nat) (p : list Request) :
  t <> t' -> find_request t' (remove_request t p) = find_request t' p.
Proof.
  intros N. unfold find_request, remove_request.
  induction p as [|r p IH]; simpl; [done|].
  destruct (Nat.eqb (ticket r) t) eqn:E; simpl.
  - apply Nat.eqb_eq in E.
    assert (Nat.eqb (ticket r) t' = false) as -> by (apply Nat.eqb_neq; congruence).
    done.
  - destruct (Nat.eqb (ticket r) t'); [done|exact IH].
Qed.

(** What the completion of a prefetch and of a fetch write. *)
Lemma resolve_fields (w : World) (t : nat) (r : Request) (result : list JsVal) :
  find_request t (pending w) = Some r ->
  let w' := step w (EResolve t result) in
  query (st w') = query (st w)
  /\ inputText (st w') = inputText (st w)
  /\ currentModel (st w') = currentModel (st w)
  /\ emitted w' = emitted w
  /\ match kont r with
     | KPrefetch => storedItems (st w') = filterCallback (cfg w) result
                    /\ autocompleteList (st w') = autocompleteList (st w)
     | KFetch => autocompleteList (st w') = filterCallback (cfg w) result
                 /\ storedItems (st w') = storedItems (st w)
     end.
Proof.
  intros F. unfold step. simpl handle. unfold resolve. rewrite F.
  unfold prefetch_then, fetch_then, saveReturnType.
  cbv beta iota delta [bind gets modify input ret].
  destruct (kont r); simpl;
    destruct (filterCallback (cfg w) result) as [[|x l]|]; simpl; done.
Qed.

(** X4. When the promise of a prefetch resolves, the stored collection
    becomes the transformed result, and the empty flag says whether the raw
    result was empty; the candidate list on display, the query and the
    request counter stay as they were, and the promise is no longer in
    flight. *)
Theorem prefetch_seeds_storedItems (w : World) (t : nat) (r : Request)
    (result : list JsVal) :
  find_request t (pending w) = Some r ->
  kont r = KPrefetch ->
  let w' := step w (EResolve t result) in
  storedItems (st w') = filterCallback (cfg w) result
  /\ noSuggestions (st w') = Some (Nat.eqb (length result) 0)
  /\ autocompleteList (st w') = autocompleteList (st w)
  /\ query (st w') = query (st w)
  /\ requestsInQueue (st w') = requestsInQueue (st w)
  /\ find_request t (pending w') = None.
Proof.
  intros F K.
  destruct (resolve_found w t r result F) as (P & _ & _ & R & N & _).
  destruct (resolve_fields w t r result F) as (Q & _ & _ & _ & S).
  rewrite K in S. destruct S as [S L]. cbv zeta.
  rewrite P, R, N, S, L, Q. unfold is_fetch. rewrite K.
  repeat split; [simpl; lia|apply find_request_removed].
Qed.

(** X5. Completions are applied in the order of arrival. With two fetches
    in flight, the candidate list and the empty flag end as the one that
    resolves last leaves them, whichever was dispatched first and whatever
    the query is by then, and the counter is lowered by two either way. *)
Theorem last_completion_wins (w : World) (t1 t2 : nat) (r1 r2 : Request)
    (res1 res2 : list JsVal) :
  t1 <> t2 ->
  find_request t1 (pending w) = Some r1 -> kont r1 = KFetch ->
  find_request t2 (pending w) = Some r2 -> kont r2 = KFetch ->
  let wa := run w [EResolve t1 res1; EResolve t2 res2] in
  let wb := run w [EResolve t2 res2; EResolve t1 res1] in
  autocompleteList (st wa) = filterCallback (cfg w) res2
  /\ noSuggestions (st wa) = Some (Nat.eqb (length res2) 0)
  /\ autocompleteList (st wb) = filterCallback (cfg w) res1
  /\ noSuggestions (st wb) = Some (Nat.eqb (length res1) 0)
  /\ requestsInQueue (st wa) = requestsInQueue (st w) - 2
  /\ requestsInQueue (st wb) = requestsInQueue (st w) - 2
  /\ query (st wa) = query (st w) /\ query (st wb) = query (st w).
Proof.
  intros N F1 K1 F2 K2.
  assert (forall (ta tb : nat) (ra rb : Request) (resa resb : list JsVal),
            ta <> tb ->
            find_request ta (pending w) = Some ra -> kont ra = KFetch ->
            find_request tb (pending w) = Some rb -> kont rb = KFetch ->
            let w' := run w [EResolve ta resa; EResolve tb resb] in
            autocompleteList (st w') = filterCallback (cfg w) resb
            /\ noSuggestions (st w') = Some (Nat.eqb (length resb) 0)
            /\ requestsInQueue (st w') = requestsInQueue (st w) - 2
            /\ query (st w') = query (st w)) as Two.
  { intros ta tb ra rb resa resb Nab Fa Ka Fb Kb.
    destruct (resolve_found w ta ra resa Fa) as (Pa & _ & Ca & Ra & _).
    destruct (resolve_fields w ta ra resa Fa) as (Qa & _).
    set (w1 := step w (EResolve ta resa)) in *.
    assert (find_request tb (pending w1) = Some rb) as Fb1
      by (rewrite Pa, find_request_other; done).
    destruct (resolve_found w1 tb rb resb Fb1) as (_ & _ & _ & Rb & Nb & _).
    destruct (resolve_fields w1 tb rb resb Fb1) as (Qb & _ & _ & _ & Sb).
    rewrite Kb in Sb. destruct Sb as [Lb _].
    unfold is_fetch in Ra, Rb. rewrite Ka in Ra. rewrite Kb in Rb.
    simpl in Ra, Rb. change (run w [EResolve ta resa; EResolve tb resb])
      with (step w1 (EResolve tb resb)).
    cbv zeta. rewrite Lb, Nb, Rb, Ra, Qb, Qa, Ca. repeat split; lia. }
  destruct (Two t1 t2 r1 r2 res1 res2) as (A1 & A2 & A3 & A4); try done.
  destruct (Two t2 t1 r2 r1 res2 res1) as (B1 & B2 & B3 & B4); try done.
Qed.

End RemotePath.

(** ** Further properties of the local path *)

Section LocalPath.
Context `{JsEnv}.

(** X6. Without a display function and with a display expression that is
    unset or empty, local filtering raises the configuration error before
    anything is read or written, and so do the focus handler and, for a
    key that is not an arrow on a text that is not empty, the key handler
    whenever they take the local path. *)
Theorem filterStoredItems_needs_display (w : World) :
  displayItemFn (cfg w) = None ->
  displayItem (cfg w) = None \/ displayItem (cfg w) = Some "" ->
  filterStoredItems w = (Throw ErrNoDisplay, w)
  /\ (doSearchViaService w = false ->
      onFocus w = (Throw ErrNoDisplay, w)
      /\ forall k, k < 37 \/ 40 < k -> inputText (st w) <> "" ->
           onKey k w = (Throw ErrNoDisplay, w)).
Proof.
  intros F D.
  assert (filterStoredItems w = (Throw ErrNoDisplay, w)) as E.
  { rewrite filterStoredItems_unfold, F. by destruct D as [->| ->]. }
  split; [done|]. intros L. split.
  - unfold onFocus. by rewrite L.
  - intros k Hk Hi. rewrite onKey_unfold.
    assert ((k <? 37) || (k >? 40) = true) as -> by lia.
    apply String.eqb_neq in Hi. rewrite Hi. unfold onKeyCallback. by rewrite L.
Qed.

(** X8. With no collection stored at all (no array was bound and nothing
    was prefetched), a qualifying query yields the empty candidate list
    with the empty flag lowered, whatever the query. *)
Theorem filter_without_collection (w : World) :
  storedItems (st w) = None ->
  display_configured w ->
  minChars (cfg w) <= strlen (inputText (st w)) ->
  fst (filterStoredItems w) = Ret tt
  /\ autocompleteList (st (snd (filterStoredItems w))) = Some []
  /\ noSuggestions (st (snd (filterStoredItems w))) = Some false
  /\ query (st (snd (filterStoredItems w))) = inputText (st w).
Proof.
  intros S [D|D] L; rewrite filterStoredItems_unfold, S; cbv zeta.
  - rewrite D. simpl andb. cbv iota.
    by assert ((strlen (inputText (st w)) <? minChars (cfg w)) = false) as -> by lia.
  - rewrite (bool_decide_eq_true_2 _ D), andb_false_r.
    by assert ((strlen (inputText (st w)) <? minChars (cfg w)) = false) as -> by lia.
Qed.

Lemma keepItem_fst_lower (item : JsVal) (w1 w2 : World) :
  cfg w1 = cfg w2 ->
  toLowerCase (query (st w1)) = toLowerCase (query (st w2)) ->
  fst (keepItem item w1) = fst (keepItem item w2).
Proof.
  intros E Q.
  cbv beta iota delta [keepItem bind input gets ret throw lower_of].
  rewrite (viewItem_eq item w1), (viewItem_eq item w2).
  rewrite (viewItem_fst_ext item w1 w2 E).
  destruct (fst (viewItem item w2)) as [v|e] eqn:V; [|done].
  cbn beta iota zeta. destruct (negb (truthy v)); [done|].
  rewrite (viewItem_eq item w1), (viewItem_eq item w2).
  rewrite (viewItem_fst_ext item w1 w2 E), V.
  destruct v; cbn beta iota zeta; try done. by rewrite E, Q.
Qed.

Lemma filterM_keepItem_fst_lower (items : list JsVal) (w1 w2 : World) :
  cfg w1 = cfg w2 ->
  toLowerCase (query (st w1)) = toLowerCase (query (st w2)) ->
  fst (filterM keepItem items w1) = fst (filterM keepItem items w2).
Proof.
  intros E Q. induction items as [|x items IH]; [done|].
  simpl. unfold bind.
  rewrite (keepItem_eq x w1), (keepItem_eq x w2), (keepItem_fst_lower x w1 w2 E Q).
  destruct (fst (keepItem x w2)) as [b|e]; [|done].
  rewrite (filterM_keepItem_eq items w1), (filterM_keepItem_eq items w2), IH.
  by destruct (fst (filterM keepItem items w2)).
Qed.

(** X9. What local filtering produces depends on the configuration, the
    stored collection and the text of the input element up to the case of
    its letters (texts of the same length with the same lower-case form),
    and on nothing else. Two components that agree on these end alike,
    both returning or both throwing the same error; when the text has at
    least [minChars] characters and they return, they hold the same
    candidate list and empty flag, whatever they displayed or searched
    before; when the text is shorter, each keeps the list and the flag it
    had. *)
Theorem filter_depends_on_items_and_text (w1 w2 : World) :
  cfg w1 = cfg w2 ->
  storedItems (st w1) = storedItems (st w2) ->
  toLowerCase (inputText (st w1)) = toLowerCase (inputText (st w2)) ->
  strlen (inputText (st w1)) = strlen (inputText (st w2)) ->
  fst (filterStoredItems w1) = fst (filterStoredItems w2)
  /\ (minChars (cfg w1) <= strlen (inputText (st w1)) ->
      fst (filterStoredItems w1) = Ret tt ->
      autocompleteList (st (snd (filterStoredItems w1)))
      = autocompleteList (st (snd (filterStoredItems w2)))
      /\ noSuggestions (st (snd (filterStoredItems w1)))
         = noSuggestions (st (snd (filterStoredItems w2))))
  /\ (strlen (inputText (st w1)) < minChars (cfg w1) ->
      autocompleteList (st (snd (filterStoredItems w1))) = autocompleteList (st w1)
      /\ noSuggestions (st (snd (filterStoredItems w1))) = noSuggestions (st w1)
      /\ autocompleteList (st (snd (filterStoredItems w2))) = autocompleteList (st w2)
      /\ noSuggestions (st (snd (filterStoredItems w2))) = noSuggestions (st w2)).
Proof.
  intros C S T Len.
  rewrite !filterStoredItems_unfold, <- C, <- S, <- Len.
  destruct (negb (displayItem_set (displayItem (cfg w1)))
            && negb (bool_decide (is_Some (displayItemFn (cfg w1))))); [done|].
  cbv zeta.
  destruct (strlen (inputText (st w1)) <? minChars (cfg w1)) eqn:L.
  { split; [done|]. split; [lia|done]. }
  destruct (storedItems (st w1)) as [items|]; [|by split; [|split; [|lia]]].
  rewrite (filterM_keepItem_fst_lower items
             (with_st (set_query (inputText (st w1))) w1)
             (with_st (set_query (inputText (st w2))) w2) C T).
  destruct (fst (filterM keepItem items _)); (split; [done|split; [done|lia]]).
Qed.

(** A candidate the filter predicate accepts or drops has a display string
    that is not empty. *)
Lemma keepItem_returns (w : World) (item : JsVal) (b : bool) :
  fst (keepItem item w) = Ret b ->
  exists d, resolves w item d /\ String.eqb d "" = false.
Proof.
  unfold keepItem, bind at 1. rewrite viewItem_eq.
  destruct (fst (viewItem item w)) as [v|e] eqn:V; [|done].
  cbn beta iota zeta.
  destruct (truthy v) eqn:T; simpl; [|done].
  unfold bind at 1. rewrite viewItem_eq, V. cbn beta iota zeta.
  destruct v; simpl; try done. intros _. exists s. split; [done|].
  simpl in T. by apply negb_true_iff in T.
Qed.

Lemma append_assoc (a b c : string) :
  ((a ++ b) ++ c = a ++ (b ++ c))%string.
Proof.
  induction a as [|x a IH]; [done|].
  by rewrite !append_String, IH.
Qed.

Lemma strlen_append (a b : string) : strlen (a ++ b)%string = strlen a + strlen b.
Proof.
  unfold strlen. induction a as [|x a IH]; [rewrite append_empty_l; simpl; lia|].
  rewrite append_String. simpl String.length. lia.
Qed.

Lemma contains_ci_prefix (d q q2 s' : string) :
  toLowerCase q2 = (toLowerCase q ++ s')%string ->
  contains_ci d q2 -> contains_ci d q.
Proof.
  intros E (pre & post & D). exists pre, (s' ++ post)%string.
  by rewrite D, E, append_assoc.
Qed.

Lemma filterM_narrows (items : list JsVal) (w1 w2 : World) (s' : string)
    (k1 : list JsVal) :
  cfg w1 = cfg w2 ->
  toLowerCase (query (st w2)) = (toLowerCase (query (st w1)) ++ s')%string ->
  fst (filterM keepItem items w1) = Ret k1 ->
  exists k2, fst (filterM keepItem items w2) = Ret k2 /\ k2 `sublist_of` k1.
Proof.
  intros C Q. revert k1. induction items as [|x items IH]; intros k1.
  - simpl. intros [= <-]. by exists [].
  - simpl. unfold bind.
    rewrite (keepItem_eq x w1), (keepItem_eq x w2).
    destruct (fst (keepItem x w1)) as [b1|e] eqn:K1; [|done].
    destruct (keepItem_returns w1 x b1 K1) as (d & R & D).
    pose proof (resolves_ext w1 w2 x d C R) as R2.
    rewrite (keepItem_string w1 x d R), D in K1. simpl in K1. injection K1 as K1.
    rewrite (keepItem_string w2 x d R2), D. simpl.
    rewrite (filterM_keepItem_eq items w1), (filterM_keepItem_eq items w2).
    destruct (fst (filterM keepItem items w1)) as [k|e]; [|done].
    destruct (IH k eq_refl) as (k2 & -> & Sub). unfold ret. simpl.
    intros [= <-].
    destruct (indexOf (toLowerCase d) (toLowerCase (query (st w2))) >? -1) eqn:I2.
    + apply indexOf_contains_ci in I2.
      apply (contains_ci_prefix d (query (st w1)) _ s' Q), indexOf_contains_ci in I2.
      rewrite I2 in K1. subst b1. exists (x :: k2). split; [done|].
      by apply sublist_skip.
    + exists k2. split; [done|]. destruct b1; [by apply sublist_cons|done].
Qed.

(** X10. Typing on narrows the result, as long as the lower-case form of
    the text is a prefix of the lower-case form of the extended text (so it
    is for unaccented letters; the case mapping of the runtime need not
    keep it, a final sigma being lowered differently): when local filtering
    succeeds for a qualifying text, it then succeeds for the extended text,
    and the candidates it keeps are a sublist of the ones kept before. *)
Theorem filter_narrows (w : World) (s s' : string) (kept : list JsVal) :
  toLowerCase (inputText (st w) ++ s)%string
  = (toLowerCase (inputText (st w)) ++ s')%string ->
  minChars (cfg w) <= strlen (inputText (st w)) ->
  is_Some (storedItems (st w)) ->
  fst (filterStoredItems w) = Ret tt ->
  autocompleteList (st (snd (filterStoredItems w))) = Some kept ->
  let w2 := with_st (set_inputText (inputText (st w) ++ s)%string) w in
  fst (filterStoredItems w2) = Ret tt
  /\ exists kept2,
       autocompleteList (st (snd (filterStoredItems w2))) = Some kept2
       /\ kept2 `sublist_of` kept.
Proof.
  intros Low L [items S] R A. cbv zeta.
  assert (minChars (cfg w) <= strlen (inputText (st w) ++ s)%string) as L2.
  { rewrite strlen_append. unfold strlen in *. lia. }
  revert R A. rewrite !filterStoredItems_unfold.
  change (cfg (with_st (set_inputText (inputText (st w) ++ s)%string) w))
    with (cfg w).
  destruct (negb (displayItem_set (displayItem (cfg w)))
            && negb (bool_decide (is_Some (displayItemFn (cfg w))))); [done|].
  cbv zeta. simpl inputText. simpl storedItems. rewrite S.
  assert ((strlen (inputText (st w)) <? minChars (cfg w)) = false) as -> by lia.
  assert ((strlen (inputText (st w) ++ s)%string <? minChars (cfg w)) = false)
    as -> by lia.
  destruct (fst (filterM keepItem items (with_st (set_query (inputText (st w))) w)))
    as [k1|e] eqn:K1; [|done].
  intros _ [= <-].
  destruct (filterM_narrows items
              (with_st (set_query (inputText (st w))) w)
              (with_st (set_query (inputText (st w) ++ s)%string)
                 (with_st (set_inputText (inputText (st w) ++ s)%string) w))
              s' k1 eq_refl Low K1) as (k2 & -> & Sub).
  split; [done|]. by exists k2.
Qed.

Lemma selects_all {A} (P : A -> Prop) (items kept : list A) :
  (forall x, x ∈ items -> P x) -> selects P items kept -> kept = items.
Proof.
  intros All. induction 1 as [|x l k Px _ IH|x l k N _ IH].
  - done.
  - f_equal. apply IH. intros y Hy. apply All. by right.
  - destruct N. apply All. by left.
Qed.

(** X11. With a threshold of zero the empty query qualifies; it keeps
    every stored candidate, in order, and lowers the empty flag (provided
    the candidates resolve to display strings that are not empty). *)
Theorem filter_empty_query_keeps_all (w : World) (items : list JsVal) :
  storedItems (st w) = Some items ->
  display_configured w ->
  minChars (cfg w) <= 0 ->
  inputText (st w) = "" ->
  (forall item, item ∈ items -> exists d, resolves w item d /\ d <> "") ->
  fst (filterStoredItems w) = Ret tt
  /\ autocompleteList (st (snd (filterStoredItems w))) = Some items
  /\ noSuggestions (st (snd (filterStoredItems w))) = Some false.
Proof.
  intros S D L I All.
  assert (minChars (cfg w) <= strlen (inputText (st w))) as L' by (by rewrite I).
  set (w1 := with_st (set_query (inputText (st w))) w).
  destruct (filterM_selects w1 items) as (kept & E & Sel).
  { intros item Hi. destruct (All item Hi) as (d & R & Hd).
    exists d. split; [|done]. by apply (resolves_ext w w1). }
  assert (kept = items) as ->.
  { refine (selects_all _ _ _ _ Sel). intros item Hi.
    destruct (All item Hi) as (d & R & _). exists d. split.
    - by apply (resolves_ext w w1).
    - exists ""%string, (toLowerCase d).
      change (query (st w1)) with (inputText (st w)).
      by rewrite I, toLowerCase_empty. }
  rewrite (filterStoredItems_run w items D L' S). fold w1. rewrite E. simpl.
  by rewrite I.
Qed.

End LocalPath.

(** ** [indexOf] *)

Section IndexOf.
Local Open Scope string_scope.

Lemma indexOf_from_first (s t : string) (i : Z) :
  indexOf_from i s t <> -1 \/ 0 <= i ->
  indexOf_from i s t = -1 \/
  exists pre post,
    s = pre ++ t ++ post
    /\ indexOf_from i s t = i + strlen pre
    /\ forall pre' post', s = pre' ++ t ++ post' -> strlen pre <= strlen pre'.
Proof.
  intros _. revert i. induction s as [|a s IH]; intros i.
  - simpl. destruct (startsWith "" t) eqn:E; [|by left]. right.
    apply startsWith_inv in E as [post E]. exists "", post.
    split; [done|]. split; [unfold strlen; simpl; lia|].
    intros pre' post' _. unfold strlen. simpl. lia.
  - cbn [indexOf_from]. destruct (startsWith (String a s) t) eqn:E.
    + right. apply startsWith_inv in E as [post E]. exists "", post.
      split; [done|]. split; [unfold strlen; simpl; lia|].
      intros pre' post' _. unfold strlen. simpl. lia.
    + destruct (IH (i + 1)) as [N|(pre & post & -> & I & Min)]; [by left|].
      right. exists (String a pre), post. split; [done|]. split.
      * rewrite I. unfold strlen. simpl String.length. lia.
      * intros pre' post' E'. destruct pre' as [|b pre'].
        -- rewrite append_empty_l in E'. rewrite E', startsWith_app in E. done.
        -- rewrite append_String in E'. injection E' as _ E'.
           specialize (Min pre' post' E'). unfold strlen in *.
           simpl String.length. lia.
Qed.

(** X12. [indexOf] finds the first occurrence: a result other than -1 is
    the position of an occurrence of the pattern, no occurrence starts
    earlier, and the result is -1 only when the pattern does not occur;
    the empty pattern is found at position 0. *)
Theorem indexOf_first_occurrence (s t : string) :
  ((indexOf s t = -1 /\ (forall pre post, s <> pre ++ t ++ post))
   \/ (exists pre post,
         s = pre ++ t ++ post
         /\ indexOf s t = strlen pre
         /\ forall pre' post', s = pre' ++ t ++ post' -> strlen pre <= strlen pre'))
  /\ indexOf s "" = 0.
Proof.
  split; [|by destruct s].
  unfold indexOf.
  destruct (indexOf_from_first s t 0) as [N|(pre & post & E & I & Min)]; [lia| |].
  - left. split; [done|]. intros pre post E.
    assert ((indexOf_from 0 s t >? -1) = true) as G
      by (apply indexOf_from_found; [lia|by exists pre, post]).
    lia.
  - right. exists pre, post. split; [done|]. split; [lia|done].
Qed.

End IndexOf.

(** ** Further properties of the model bridge and the handlers *)

Section Bridge.
Context `{JsEnv}.

Lemma strict_neq_refl (v : JsVal) : v <> VNaN -> strict_neq v v = false.
Proof.
  intros N. unfold strict_neq, strict_eq.
  destruct v; try done; by rewrite bool_decide_eq_true_2.
Qed.

(** X13. Assigning to [model] the value it already holds does nothing: no
    second notification is sent ([NaN], which differs from itself, apart),
    and the getter returns the value last assigned whether or not a
    notification was sent. *)
Theorem set_model_twice (w : World) (v : JsVal) :
  v <> VNaN ->
  get_model (snd (set_model v w)) = v
  /\ set_model v (snd (set_model v w)) = (Ret tt, snd (set_model v w)).
Proof.
  intros N. pose proof (set_model_currentModel w v) as C.
  split; [exact C|].
  unfold set_model at 1. cbv beta iota delta [bind gets].
  by rewrite C, (strict_neq_refl v N).
Qed.

Lemma clearValue_emitted (w : World) :
  emitted (snd (clearValue w))
  = emitted w
    ++ (if formControlItem (st w) then [FormReset] else [])
    ++ (if strict_neq VNull (currentModel (st w)) then [ModelChange VNull] else [])
    ++ [ValueChange (VStr "")].
Proof.
  unfold clearValue, reset_formControl, set_model, set_value.
  cbv beta iota delta [bind gets modify ret emit].
  destruct (formControlItem (st w)); simpl;
    destruct (strict_neq VNull (currentModel (st w))); simpl;
    by rewrite <- ?app_assoc.
Qed.

Lemma strict_neq_null (v : JsVal) : strict_neq VNull v = true <-> v <> VNull.
Proof.
  unfold strict_neq. rewrite negb_true_iff. split.
  - intros E ->. done.
  - intros N. destruct (strict_eq VNull v) eqn:E; [|done].
    apply strict_eq_true in E. congruence.
Qed.

(** X14. [clearValue] leaves the model [null] and announces the change on
    [modelChange] exactly when the model was not [null] already, whatever
    the cached kind; clearing a second time announces nothing. *)
Theorem clearValue_twice (w : World) :
  let w1 := snd (clearValue w) in
  let w2 := snd (clearValue w1) in
  get_model w1 = VNull
  /\ (ModelChange VNull ∈ drop (length (emitted w)) (emitted w1)
      <-> currentModel (st w) <> VNull)
  /\ get_model w2 = VNull
  /\ (forall v, ModelChange v ∉ drop (length (emitted w1)) (emitted w2)).
Proof.
  cbv zeta. destruct (clearValue_clears w) as [M _].
  destruct (clearValue_clears (snd (clearValue w))) as [M2 _].
  split; [exact M|]. split; [|split; [exact M2|]].
  - rewrite clearValue_emitted, drop_app_length, <- strict_neq_null.
    destruct (formControlItem (st w));
      destruct (strict_neq VNull (currentModel (st w))); simpl;
      rewrite ?elem_of_cons, ?elem_of_nil; intuition congruence.
  - intros v. rewrite (clearValue_emitted (snd (clearValue w))), drop_app_length, M.
    destruct (formControlItem (st (snd (clearValue w)))); simpl;
      rewrite ?not_elem_of_cons, ?elem_of_nil; intuition congruence.
Qed.

(** X15. A source binding makes no request and sends no notification;
    binding an array and binding a service do not interfere, so the two
    can be bound in either order with the same outcome: the service and
    the collection are both held, and the cached kind is taken from the
    array. *)
Theorem set_source_bindings_commute (w : World) (s : nat) (items : list JsVal) :
  let wa := snd (set_source (SrcService s) (snd (set_source (SrcArray items) w))) in
  let wb := snd (set_source (SrcArray items) (snd (set_source (SrcService s) w))) in
  wa = wb
  /\ service (st wa) = Some s
  /\ storedItems (st wa) = Some items
  /\ returnType (st wa) = match items with
                          | x :: _ => Some (typeof x)
                          | [] => returnType (st w)
                          end
  /\ pending wa = pending w
  /\ emitted wa = emitted w
  /\ requestsInQueue (st wa) = requestsInQueue (st w)
  /\ autocompleteList (st wa) = autocompleteList (st w).
Proof.
  unfold set_source, saveReturnType. cbv beta iota delta [bind gets modify ret].
  destruct items as [|x items]; simpl; done.
Qed.

(** X16. A selection never throws and leaves the candidate list, the empty
    flag, the stored collection, the cached kind, the request counter, the
    promises in flight and the configuration as they were; the query
    becomes the text the input element held when the selection was made. *)
Theorem autocompleteSelected_frame (w : World) (selected : JsVal) :
  let w' := snd (autocompleteSelected selected w) in
  fst (autocompleteSelected selected w) = Ret tt
  /\ query (st w') = inputText (st w)
  /\ autocompleteList (st w') = autocompleteList (st w)
  /\ noSuggestions (st w') = noSuggestions (st w)
  /\ storedItems (st w') = storedItems (st w)
  /\ returnType (st w') = returnType (st w)
  /\ requestsInQueue (st w') = requestsInQueue (st w)
  /\ pending w' = pending w
  /\ cfg w' = cfg w.
Proof.
  cbv zeta. split.
  - rewrite autocompleteSelected_run.
    destruct (clearAfterSearch (cfg w)); [by rewrite clearValue_eq|done].
  - by destruct (autocompleteSelected_shape w selected) as (m & v & em & txt & ->).
Qed.

(** X17. A key that is not an arrow, pressed on an empty text, clears the
    control before anything else: afterwards the model is [null] and the
    value is the empty string even when the dispatch that follows throws,
    and no request is made on either path; on the remote path the
    candidate list is emptied as well. *)
Theorem onKey_empty_clears (k : Z) (w : World) :
  k < 37 \/ 40 < k ->
  inputText (st w) = "" ->
  let w' := snd (onKey k w) in
  currentModel (st w') = VNull
  /\ value (st w') = VStr ""
  /\ pending w' = pending w
  /\ requestsInQueue (st w') = requestsInQueue (st w)
  /\ (doSearchViaService w = true ->
      fst (onKey k w) = Ret tt /\ autocompleteList (st w') = Some []).
Proof.
  intros K I. cbv zeta. rewrite onKey_unfold.
  assert ((k <? 37) || (k >? 40) = true) as -> by lia.
  rewrite I. simpl String.eqb. cbv iota.
  destruct (clearValue_clears w) as [M V].
  pose proof (clearValue_doSearchViaService w) as D.
  destruct (clearValue_shape w) as (m & v & em & txt & E & Txt).
  assert (txt = "") as -> by (destruct Txt as [->| ->]; done).
  rewrite E in M, V, D |- *. simpl in M, V. subst m v.
  unfold onKeyCallback. rewrite D.
  destruct (doSearchViaService w) eqn:Dw.
  - unfold doSearchViaService in Dw. apply andb_true_iff in Dw as [Dw _].
    apply bool_decide_eq_true in Dw as [s S].
    rewrite fetch_unfold. simpl service. rewrite S. cbv zeta.
    simpl inputText. simpl. done.
  - destruct (filterStoredItems_cases
                (with_emitted em
                   (with_st (fun c => set_inputText ""
                                        (set_value_field (VStr "")
                                           (set_currentModel VNull c))) w)));
      simpl; done.
Qed.



End Bridge.

(** ** A component without a service *)

Section ArrayOnly.
Context `{JsEnv}.

Lemma Unserved_local (w : World) : Unserved w -> doSearchViaService w = false.
Proof. intros (S & _). unfold doSearchViaService. by rewrite S. Qed.

Lemma filterStoredItems_Unserved (w : World) :
  Unserved w -> Unserved (snd (filterStoredItems w)).
Proof. intros U. by destruct (filterStoredItems_cases w). Qed.

Lemma step_Unserved (w : World) (e : Event) :
  Unserved w -> is_service_binding e = false -> Unserved (step w e).
Proof.
  intros U B. pose proof U as (S & P & N & R).
  pose proof (Unserved_local w U) as L.
  unfold step. destruct e; simpl handle; try done.
  - destruct v as [s|[|x items]]; done.
  - by destruct (set_model_shape w v) as (m & em & ->).
  - unfold ngOnInit. cbv beta iota delta [bind input ret].
    destruct (doPrefetch (cfg w)); [|done]. by rewrite prefetch_unfold, S.
  - by rewrite prefetch_unfold, S.
  - by rewrite fetch_unfold, S.
  - by apply filterStoredItems_Unserved.
  - by destruct (autocompleteSelected_shape w v) as (m & v' & em & txt & ->).
  - rewrite onKey_unfold. destruct ((keyCode <? 37) || (keyCode >? 40)); [|done].
    unfold onKeyCallback.
    destruct (String.eqb (inputText (st w)) "").
    + rewrite clearValue_doSearchViaService, L.
      apply filterStoredItems_Unserved.
      by destruct (clearValue_shape w) as (m & v & em & txt & -> & Txt).
    + rewrite L. by apply filterStoredItems_Unserved.
  - unfold onKeyCallback. rewrite L. by apply filterStoredItems_Unserved.
  - unfold onFocus. rewrite L. by apply filterStoredItems_Unserved.
  - by destruct (clearValue_shape w) as (m & v & em & txt & -> & Txt).
  - unfold resolve. by rewrite P.
  - unfold reject. by rewrite P.
Qed.

(** X18. A component to which no service is ever bound never calls one:
    whatever the host and the user do, no promise is in flight, the request
    counter stays 0, every handler takes the local path, and the public
    [fetch] and [prefetch] throw. *)
Theorem no_service_no_request (i : Inputs) (tr : list Event) :
  Forall (fun e => is_service_binding e = false) tr ->
  let w := run (init i) tr in
  service (st w) = None
  /\ pending w = []
  /\ requestsInQueue (st w) = 0
  /\ doSearchViaService w = false
  /\ fst (prefetch w) = Throw ErrPrefetchNoService
  /\ forall force, fst (fetch force w) = Throw ErrFetchNoService.
Proof.
  intros F. cbv zeta.
  assert (Unserved (run (init i) tr)) as U.
  { assert (Unserved (init i)) as U0 by done.
    revert U0. generalize (init i). induction F as [|e tr B _ IH]; intros w U; [done|].
    rewrite run_cons. apply IH. by apply step_Unserved. }
  pose proof (Unserved_local _ U) as L. destruct U as (S & P & _ & R).
  split; [done|]. split; [done|]. split; [done|]. split; [done|]. split.
  - by rewrite prefetch_unfold, S.
  - intros force. by rewrite fetch_unfold, S.
Qed.

End ArrayOnly.

(** ** The presentation handlers *)

Section PresentationFacts.
Context `{JsEnv}.
Variable toText : JsVal -> string.

Lemma with_st_inputText_id (w : World) :
  with_st (set_inputText (inputText (st w))) w = w.
Proof. by destruct w as [c [] p n e]. Qed.

(** X19. What the panel shows for a candidate is what local filtering
    searches: for a truthy item the function handed to the panel returns
    the value [viewItem] resolves, under the same configuration; without a
    display function a falsy item (an empty model) is returned as it is,
    so that showing it never throws. *)
Theorem display_matches_filter (w w' : World) (item : JsVal) :
  cfg w' = cfg w ->
  exists g,
    autocompleteDisplayFn w = (Ret g, w)
    /\ (truthy item = true -> g item w' = viewItem item w')
    /\ (truthy item = false -> displayItemFn (cfg w) = None ->
        g item w' = (Ret item, w')).
Proof.
  intros C. unfold autocompleteDisplayFn. cbv beta iota delta [bind input].
  destruct (displayItemFn (cfg w)) as [f|] eqn:F.
  - eexists. split; [reflexivity|]. split; [|done].
    intros _. unfold viewItem. cbv beta iota delta [bind input ret].
    by rewrite C, F.
  - eexists. split; [reflexivity|]. split; [by intros ->|by intros ->].
Qed.

(** X20. [onBlur] writes nothing but the text of the input element, and
    only when the view has a search button, the text is empty and the
    focus does not move to that button. Then the text becomes the display
    string of the model; with no model (a falsy one) it stays empty, and
    when the display string cannot be resolved the exception leaves the
    text as it was. *)
Theorem onBlur_restores_text (searchButton relatedTarget : option nat) (w : World) :
  let o := onBlur toText searchButton relatedTarget w in
  let m := currentModel (st w) in
  (exists txt, snd o = with_st (set_inputText txt) w)
  /\ (searchButton = None \/ inputText (st w) <> "" \/ relatedTarget = searchButton ->
      o = (Ret tt, w))
  /\ (is_Some searchButton -> inputText (st w) = "" -> relatedTarget <> searchButton ->
      (truthy m = false -> o = (Ret tt, w))
      /\ (forall d, truthy m = true -> resolves w m d ->
            o = (Ret tt, with_st (set_inputText d) w))
      /\ (forall e, truthy m = true -> fst (viewItem m w) = Throw e ->
            o = (Throw e, w))).
Proof.
  cbv zeta. unfold onBlur. cbv beta iota delta [bind gets modify ret].
  destruct (bool_decide (is_Some searchButton)
            && String.eqb (inputText (st w)) ""
            && negb (bool_decide (relatedTarget = searchButton))) eqn:G.
  - apply andb_true_iff in G as [G G3]. apply andb_true_iff in G as [G1 G2].
    apply bool_decide_eq_true in G1. apply String.eqb_eq in G2.
    apply negb_true_iff, bool_decide_eq_false in G3.
    assert (with_st (set_inputText "") w = w) as Id
      by (rewrite <- G2 at 1; apply with_st_inputText_id).
    destruct (truthy (currentModel (st w))) eqn:T.
    + rewrite (viewItem_eq (currentModel (st w)) w).
      destruct (fst (viewItem (currentModel (st w)) w)) as [v|e] eqn:V.
      * split; [by eexists|]. split.
        { intros [->|[N|E]]; [by destruct G1|done|done]. }
        intros _ _ _. split; [done|]. split; [|done].
        intros d _ R. unfold resolves in R. rewrite V in R. by injection R as ->.
      * split; [exists (inputText (st w)); by rewrite with_st_inputText_id|]. split.
        { intros [->|[N|E]]; [by destruct G1|done|done]. }
        intros _ _ _. split; [done|]. split; [|by intros e' _ [= ->]].
        intros d _ R. unfold resolves in R. by rewrite V in R.
    + simpl. rewrite Id. split; [exists (inputText (st w)); by rewrite with_st_inputText_id|].
      split; [done|]. intros _ _ _. split; [done|]. split; done.
  - split; [exists (inputText (st w)); by rewrite with_st_inputText_id|].
    split; [done|]. intros B I R.
    rewrite (bool_decide_eq_true_2 _ B) in G. apply String.eqb_eq in I.
    rewrite I in G. rewrite (bool_decide_eq_false_2 _ R) in G. done.
Qed.

(** X21. [onCreateNew] announces the model as it is and never changes it:
    it writes nothing but the text of the input element. A falsy model
    leaves the text alone; a model of the cached kind puts its display
    string there (and an exception in resolving it leaves the text alone
    and announces nothing); a model of another kind is written there
    itself. *)
Theorem onCreateNew_announces_model (w : World) :
  let o := onCreateNew toText w in
  let m := currentModel (st w) in
  (exists txt, snd o = with_st (set_inputText txt) w)
  /\ (forall v, fst o = Ret v -> v = m)
  /\ (truthy m = false -> o = (Ret m, w))
  /\ (truthy m = true -> returnType (st w) <> Some (typeof m) ->
      o = (Ret m, with_st (set_inputText (assignText toText m)) w))
  /\ (forall d, truthy m = true -> returnType (st w) = Some (typeof m) ->
        resolves w m d -> o = (Ret m, with_st (set_inputText d) w))
  /\ (forall e, truthy m = true -> returnType (st w) = Some (typeof m) ->
        fst (viewItem m w) = Throw e -> o = (Throw e, w)).
Proof.
  cbv zeta. unfold onCreateNew. cbv beta iota delta [bind gets modify ret].
  destruct (truthy (currentModel (st w))) eqn:T.
  - destruct (returnType_is (returnType (st w)) (currentModel (st w))) eqn:R.
    + apply returnType_is_true in R.
      rewrite (viewItem_eq (currentModel (st w)) w).
      destruct (fst (viewItem (currentModel (st w)) w)) as [v|e] eqn:V; simpl.
      * split; [by eexists|]. split; [by intros ? [= <-]|]. split; [done|].
        split; [done|]. split; [|done].
        intros d _ _ Rd. unfold resolves in Rd. rewrite V in Rd.
        by injection Rd as ->.
      * split; [exists (inputText (st w)); by rewrite with_st_inputText_id|].
        split; [done|]. split; [done|]. split; [done|]. split.
        -- intros d _ _ Rd. unfold resolves in Rd. by rewrite V in Rd.
        -- by intros e' _ _ [= ->].
    + assert (returnType (st w) <> Some (typeof (currentModel (st w)))) as N.
      { intros E. apply returnType_is_true in E. congruence. }
      simpl. split; [by eexists|]. split; [by intros ? [= <-]|]. split; [done|].
      split; [done|]. split; done.
  - simpl. split; [exists (inputText (st w)); by rewrite with_st_inputText_id|].
    split; [by intros ? [= <-]|]. split; [done|]. split; [done|]. split; done.
Qed.

End PresentationFacts.

(** ** What a turn leaves alone *)

Section Frames.
Context `{JsEnv}.

Lemma fetch_model (force : bool) (w : World) :
  let w' := snd (fetch force w) in
  currentModel (st w') = currentModel (st w) /\ value (st w') = value (st w)
  /\ emitted w' = emitted w /\ storedItems (st w') = storedItems (st w).
Proof.
  rewrite fetch_unfold. destruct (service (st w)); [|done]. cbv zeta.
  destruct (String.eqb (inputText (st w)) ""); [done|]. by destruct (force || _).
Qed.

Lemma prefetch_model (w : World) :
  let w' := snd (prefetch w) in
  currentModel (st w') = currentModel (st w) /\ value (st w') = value (st w)
  /\ emitted w' = emitted w.
Proof. rewrite prefetch_unfold. by destruct (service (st w)). Qed.

Lemma filterStoredItems_model (w : World) :
  let w' := snd (filterStoredItems w) in
  currentModel (st w') = currentModel (st w) /\ value (st w') = value (st w)
  /\ emitted w' = emitted w /\ storedItems (st w') = storedItems (st w).
Proof. by destruct (filterStoredItems_cases w). Qed.

Lemma onKeyCallback_model (w : World) :
  let w' := snd (onKeyCallback w) in
  currentModel (st w') = currentModel (st w) /\ value (st w') = value (st w)
  /\ emitted w' = emitted w /\ storedItems (st w') = storedItems (st w).
Proof.
  unfold onKeyCallback. destruct (doSearchViaService w);
    [apply fetch_model|apply filterStoredItems_model].
Qed.

Lemma step_model (w : World) (e : Event) :
  writes_model e = false ->
  currentModel (st (step w e)) = currentModel (st w)
  /\ value (st (step w e)) = value (st w)
  /\ emitted (step w e) = emitted w.
Proof.
  intros W. unfold step. destruct e; try discriminate W; simpl handle; try done.
  - destruct v as [s|[|x items]]; done.
  - unfold ngOnInit. cbv beta iota delta [bind input ret].
    destruct (doPrefetch (cfg w)); [apply prefetch_model|done].
  - apply prefetch_model.
  - by destruct (fetch_model force w) as (? & ? & ? & _).
  - by destruct (filterStoredItems_model w) as (? & ? & ? & _).
  - by destruct (onKeyCallback_model w) as (? & ? & ? & _).
  - by destruct (onKeyCallback_model w) as (? & ? & ? & _).
  - destruct (find_request t (pending w)) as [r|] eqn:F.
    + destruct (resolve_fields w t r result F) as (_ & _ & M & E & _).
      unfold step in M, E. simpl handle in M, E. split; [done|]. split; [|done].
      unfold resolve. rewrite F. unfold prefetch_then, fetch_then, saveReturnType.
      cbv beta iota delta [bind gets modify input ret].
      destruct (kont r); simpl;
        by destruct (filterCallback (cfg w) result) as [[|x l]|].
    + unfold resolve. by rewrite F.
Qed.

(** X23. Searching never touches the selection. Along any run without an
    assignment to [model], a selection, a key press or a clearing (so
    through every binding, focus, fetch, prefetch, filtering, completion
    and rejection) the model and the bound value stay as they were and no
    notification is sent to the host. *)
Theorem searching_keeps_model (w : World) (tr : list Event) :
  Forall (fun e => writes_model e = false) tr ->
  currentModel (st (run w tr)) = currentModel (st w)
  /\ value (st (run w tr)) = value (st w)
  /\ emitted (run w tr) = emitted w.
Proof.
  intros F. revert w. induction F as [|e tr W _ IH]; intros w; [done|].
  rewrite run_cons. destruct (IH (step w e)) as (-> & -> & ->).
  by apply step_model.
Qed.

(** X24. The stored collection is replaced by the binding of an array, by
    a prefetch and by the completion of a prefetch, and by nothing else:
    filtering, fetching and its completion, selecting, clearing and typing
    leave it as it is, so every local search runs over the whole
    collection. *)
Theorem storedItems_kept (w : World) (e : Event) :
  replaces_collection w e = false ->
  storedItems (st (step w e)) = storedItems (st w).
Proof.
  intros R. unfold step. destruct e; simpl in R; try discriminate R;
    simpl handle; try done.
  - by destruct v.
  - by destruct (set_model_shape w v) as (m & em & ->).
  - unfold ngOnInit. cbv beta iota delta [bind input ret]. by rewrite R.
  - by destruct (fetch_model force w) as (_ & _ & _ & ?).
  - by destruct (filterStoredItems_model w) as (_ & _ & _ & ?).
  - by destruct (autocompleteSelected_shape w v) as (m & v' & em & txt & ->).
  - rewrite onKey_unfold. destruct ((keyCode <? 37) || (keyCode >? 40)); [|done].
    destruct (String.eqb (inputText (st w)) "").
    + destruct (clearValue_shape w) as (m & v & em & txt & -> & Txt).
      by destruct (onKeyCallback_model
                     (with_emitted em
                        (with_st (fun c => set_inputText txt
                                             (set_value_field v
                                                (set_currentModel m c))) w)))
        as (_ & _ & _ & ->).
    + by destruct (onKeyCallback_model w) as (_ & _ & _ & ?).
  - by destruct (onKeyCallback_model w) as (_ & _ & _ & ?).
  - by destruct (onKeyCallback_model w) as (_ & _ & _ & ?).
  - by destruct (clearValue_shape w) as (m & v & em & txt & -> & Txt).
  - destruct (find_request t (pending w)) as [r|] eqn:F.
    + destruct (resolve_fields w t r result F) as (_ & _ & _ & _ & S).
      unfold is_fetch in R. apply negb_false_iff, bool_decide_eq_true in R.
      rewrite R in S. unfold step in S. simpl handle in S. by destruct S.
    + unfold resolve. by rewrite F.
Qed.

Lemma step_storedItems (w : World) (e : Event) :
  may_replace_collection e = false ->
  storedItems (st (step w e)) = storedItems (st w).
Proof.
  intros R. unfold step. destruct e; try discriminate R; simpl handle; try done.
  - destruct v; [done|discriminate R].
  - by destruct (set_model_shape w v) as (m & em & ->).
  - by destruct (fetch_model force w) as (_ & _ & _ & ?).
  - by destruct (filterStoredItems_model w) as (_ & _ & _ & ?).
  - by destruct (autocompleteSelected_shape w v) as (m & v' & em & txt & ->).
  - rewrite onKey_unfold. destruct ((keyCode <? 37) || (keyCode >? 40)); [|done].
    destruct (String.eqb (inputText (st w)) "").
    + destruct (clearValue_shape w) as (m & v & em & txt & -> & Txt).
      by destruct (onKeyCallback_model
                     (with_emitted em
                        (with_st (fun c => set_inputText txt
                                             (set_value_field v
                                                (set_currentModel m c))) w)))
        as (_ & _ & _ & ->).
    + by destruct (onKeyCallback_model w) as (_ & _ & _ & ?).
  - by destruct (onKeyCallback_model w) as (_ & _ & _ & ?).
  - by destruct (onKeyCallback_model w) as (_ & _ & _ & ?).
  - by destruct (clearValue_shape w) as (m & v & em & txt & -> & Txt).
Qed.

Lemma run_storedItems (w : World) (tr : list Event) :
  Forall (fun e => may_replace_collection e = false) tr ->
  storedItems (st (run w tr)) = storedItems (st w).
Proof.
  intros F. revert w. induction F as [|e tr R _ IH]; intros w; [done|].
  rewrite run_cons, IH. by apply step_storedItems.
Qed.

(** X7. From the call of [prefetch] until the stored collection is next
    replaced (through every turn other than the binding of an array, a
    further prefetch, [ngOnInit] and the resolution of a promise) the
    stored collection is empty, so local filtering of a qualifying query
    that is not empty finds nothing and raises the empty flag. *)
Theorem filter_while_prefetching (w0 w : World) (s : nat) (tr : list Event) :
  service (st w0) = Some s ->
  Forall (fun e => may_replace_collection e = false) tr ->
  w = run (snd (prefetch w0)) tr ->
  display_configured w ->
  minChars (cfg w) <= strlen (inputText (st w)) ->
  inputText (st w) <> "" ->
  fst (prefetch w0) = Ret tt
  /\ storedItems (st w) = Some []
  /\ fst (filterStoredItems w) = Ret tt
  /\ autocompleteList (st (snd (filterStoredItems w))) = Some []
  /\ noSuggestions (st (snd (filterStoredItems w))) = Some true.
Proof.
  intros S F -> D L N.
  assert (storedItems (st (run (snd (prefetch w0)) tr)) = Some []) as St.
  { rewrite (run_storedItems _ tr F), prefetch_unfold, S. done. }
  split; [by rewrite prefetch_unfold, S|]. split; [done|].
  rewrite (filterStoredItems_run _ [] D L St). simpl.
  split; [done|]. split; [done|].
  assert ((strlen (inputText (st (run (snd (prefetch w0)) tr))) >? 0) = true) as ->;
    [|done].
  unfold strlen. destruct (inputText (st (run (snd (prefetch w0)) tr)));
    [done|reflexivity].
Qed.

End Frames.

(** ** The further properties on the sample worlds *)

Lemma fetch_request_params_witness :
  exists s p,
    service (st world_remote) = Some s
    /\ fetch false world_remote
       = (Ret tt,
          snd (dispatch s p KFetch
                 (with_st (fun c => set_requestsInQueue (requestsInQueue c + 1)
                                      (set_noSuggestions (Some false)
                                         (set_query (inputText (st world_remote)) c)))
                    world_remote)))
    /\ pending (snd (fetch false world_remote))
       = pending world_remote ++ [{| ticket := nextTicket world_remote; kont := KFetch;
                                     target := s; params := p |}]
    /\ p !! "query" = Some (inputText (st world_remote))
    /\ (forall k, k <> "query" ->
          p !! k = match serviceParams (cfg world_remote) with
                   | Some base => base !! k
                   | None => None
                   end).
Proof.
  apply (@fetch_request_params false world_remote). vm_compute. reflexivity.
Defined.

Lemma fetch_forced_witness :
  let w' := snd (fetch true world_remote) in
  fst (fetch true world_remote) = Ret tt
  /\ query (st w') = inputText (st world_remote)
  /\ (if String.eqb (inputText (st world_remote)) ""
      then pending w' = pending world_remote
           /\ requestsInQueue (st w') = requestsInQueue (st world_remote)
           /\ autocompleteList (st w') = Some []
           /\ noSuggestions (st w') = noSuggestions (st world_remote)
      else length (pending w') = S (length (pending world_remote))
           /\ requestsInQueue (st w') = requestsInQueue (st world_remote) + 1
           /\ autocompleteList (st w') = autocompleteList (st world_remote)
           /\ noSuggestions (st w') = Some false).
Proof. apply (fetch_forced world_remote 7). reflexivity. Defined.

Lemma ngOnInit_prefetches_witness :
  let w := world_before_init in
  let w' := snd (ngOnInit w) in
  fst (ngOnInit w) = Ret tt
  /\ pending w'
     = pending w ++ [{| ticket := nextTicket w; kont := KPrefetch; target := 7;
                        params := match serviceParams (cfg w) with
                                  | Some base => base
                                  | None => ∅
                                  end |}]
  /\ storedItems (st w') = Some []
  /\ noSuggestions (st w') = Some false
  /\ autocompleteList (st w') = autocompleteList (st w)
  /\ requestsInQueue (st w') = requestsInQueue (st w)
  /\ doSearchViaService w' = false.
Proof. apply (ngOnInit_prefetches world_before_init 7); reflexivity. Defined.

Lemma prefetch_seeds_storedItems_witness :
  let w := world_prefetching in
  let w' := @step fruit_env w (EResolve 0 fruits) in
  storedItems (st w') = filterCallback (cfg w) fruits
  /\ noSuggestions (st w') = Some (Nat.eqb (length fruits) 0)
  /\ autocompleteList (st w') = autocompleteList (st w)
  /\ query (st w') = query (st w)
  /\ requestsInQueue (st w') = requestsInQueue (st w)
  /\ find_request 0 (pending w') = None.
Proof.
  apply (@prefetch_seeds_storedItems fruit_env world_prefetching 0
           {| ticket := 0; kont := KPrefetch; target := 7; params := ∅ |} fruits);
    reflexivity.
Defined.

Lemma last_completion_wins_witness :
  let w := world_two_fetches in
  let wa := @run fruit_env w [EResolve 0 [VObj 1; VObj 2]; EResolve 1 [VObj 3]] in
  let wb := @run fruit_env w [EResolve 1 [VObj 3]; EResolve 0 [VObj 1; VObj 2]] in
  autocompleteList (st wa) = filterCallback (cfg w) [VObj 3]
  /\ noSuggestions (st wa) = Some (Nat.eqb (length [VObj 3]) 0)
  /\ autocompleteList (st wb) = filterCallback (cfg w) [VObj 1; VObj 2]
  /\ noSuggestions (st wb) = Some (Nat.eqb (length [VObj 1; VObj 2]) 0)
  /\ requestsInQueue (st wa) = requestsInQueue (st w) - 2
  /\ requestsInQueue (st wb) = requestsInQueue (st w) - 2
  /\ query (st wa) = query (st w) /\ query (st wb) = query (st w).
Proof.
  apply (@last_completion_wins fruit_env world_two_fetches 0 1 request_a request_ab
           [VObj 1; VObj 2] [VObj 3]).
  - discriminate.
  - vm_compute. reflexivity.
  - reflexivity.
  - vm_compute. reflexivity.
  - reflexivity.
Defined.

Lemma filterStoredItems_needs_display_witness :
  let w := world_no_display in
  @filterStoredItems fruit_env w = (Throw ErrNoDisplay, w)
  /\ (doSearchViaService w = false ->
      @onFocus fruit_env w = (Throw ErrNoDisplay, w)
      /\ forall k, k < 37 \/ 40 < k -> inputText (st w) <> "" ->
           @onKey fruit_env k w = (Throw ErrNoDisplay, w)).
Proof.
  apply (@filterStoredItems_needs_display fruit_env world_no_display).
  - reflexivity.
  - left. reflexivity.
Defined.

Lemma filter_while_prefetching_witness :
  let w := @run fruit_env (snd (prefetch world_before_init)) trace_typing in
  fst (prefetch world_before_init) = Ret tt
  /\ storedItems (st w) = Some []
  /\ fst (@filterStoredItems fruit_env w) = Ret tt
  /\ autocompleteList (st (snd (@filterStoredItems fruit_env w))) = Some []
  /\ noSuggestions (st (snd (@filterStoredItems fruit_env w))) = Some true.
Proof.
  apply (@filter_while_prefetching fruit_env world_before_init
           (@run fruit_env (snd (prefetch world_before_init)) trace_typing) 7 trace_typing).
  - reflexivity.
  - repeat (apply Forall_cons; split; [reflexivity|]). apply Forall_nil_2.
  - reflexivity.
  - left. reflexivity.
  - vm_compute. discriminate.
  - vm_compute. discriminate.
Defined.

Lemma filter_without_collection_witness :
  let w := world_unbound in
  fst (@filterStoredItems fruit_env w) = Ret tt
  /\ autocompleteList (st (snd (@filterStoredItems fruit_env w))) = Some []
  /\ noSuggestions (st (snd (@filterStoredItems fruit_env w))) = Some false
  /\ query (st (snd (@filterStoredItems fruit_env w))) = inputText (st w).
Proof.
  apply (@filter_without_collection fruit_env world_unbound).
  - reflexivity.
  - left. reflexivity.
  - vm_compute. discriminate.
Defined.

Lemma filter_depends_on_items_and_text_witness :
  let w1 := world_fruits in
  let w2 := world_fruits_upper in
  fst (@filterStoredItems fruit_env w1) = fst (@filterStoredItems fruit_env w2)
  /\ autocompleteList (st (snd (@filterStoredItems fruit_env w1)))
     = autocompleteList (st (snd (@filterStoredItems fruit_env w2)))
  /\ noSuggestions (st (snd (@filterStoredItems fruit_env w1)))
     = noSuggestions (st (snd (@filterStoredItems fruit_env w2))).
Proof.
  destruct (@filter_depends_on_items_and_text fruit_env world_fruits world_fruits_upper)
    as (A & B & _); try reflexivity.
  split; [exact A|]. apply B; [vm_compute; discriminate|reflexivity].
Defined.

Lemma filter_narrows_witness :
  let w := world_fruits in
  let w2 := with_st (set_inputText (inputText (st w) ++ "r")%string) w in
  fst (@filterStoredItems fruit_env w2) = Ret tt
  /\ exists kept2,
       autocompleteList (st (snd (@filterStoredItems fruit_env w2))) = Some kept2
       /\ kept2 `sublist_of` [VObj 1; VObj 2].
Proof.
  apply (@filter_narrows fruit_env world_fruits "r" "r" [VObj 1; VObj 2]).
  - reflexivity.
  - vm_compute. discriminate.
  - eexists. reflexivity.
  - reflexivity.
  - reflexivity.
Defined.

Lemma filter_empty_query_keeps_all_witness :
  let w := world_zero_chars in
  fst (@filterStoredItems fruit_env w) = Ret tt
  /\ autocompleteList (st (snd (@filterStoredItems fruit_env w))) = Some fruits
  /\ noSuggestions (st (snd (@filterStoredItems fruit_env w))) = Some false.
Proof.
  apply (@filter_empty_query_keeps_all fruit_env world_zero_chars fruits).
  - reflexivity.
  - left. reflexivity.
  - vm_compute. discriminate.
  - reflexivity.
  - intros item Hi.
    repeat (apply elem_of_cons in Hi as [->|Hi]); [| | |by apply elem_of_nil in Hi].
    + exists "Apple". split; [reflexivity|discriminate].
    + exists "Apricot". split; [reflexivity|discriminate].
    + exists "Banana". split; [reflexivity|discriminate].
Defined.

Lemma set_model_twice_witness :
  get_model (snd (set_model (VObj 2) world_fruits)) = VObj 2
  /\ set_model (VObj 2) (snd (set_model (VObj 2) world_fruits))
     = (Ret tt, snd (set_model (VObj 2) world_fruits)).
Proof. apply (set_model_twice world_fruits (VObj 2)). discriminate. Defined.

Lemma onKey_empty_clears_witness :
  let w := world_picked in
  let w' := snd (@onKey fruit_env 8 w) in
  currentModel (st w') = VNull
  /\ value (st w') = VStr ""
  /\ pending w' = pending w
  /\ requestsInQueue (st w') = requestsInQueue (st w)
  /\ (doSearchViaService w = true ->
      fst (@onKey fruit_env 8 w) = Ret tt /\ autocompleteList (st w') = Some []).
Proof.
  apply (@onKey_empty_clears fruit_env 8 world_picked).
  - left. lia.
  - reflexivity.
Defined.

Lemma no_service_no_request_witness :
  let w := @run fruit_env (init fruit_inputs) trace_array_only in
  service (st w) = None
  /\ pending w = []
  /\ requestsInQueue (st w) = 0
  /\ doSearchViaService w = false
  /\ fst (prefetch w) = Throw ErrPrefetchNoService
  /\ forall force, fst (fetch force w) = Throw ErrFetchNoService.
Proof.
  apply (@no_service_no_request fruit_env fruit_inputs trace_array_only).
  repeat (apply Forall_cons; split; [reflexivity|]). apply Forall_nil_2.
Defined.

Lemma display_matches_filter_witness :
  exists g,
    @autocompleteDisplayFn fruit_env world_fruits = (Ret g, world_fruits)
    /\ (truthy (VObj 2) = true -> g (VObj 2) world_picked = @viewItem fruit_env (VObj 2) world_picked)
    /\ (truthy (VObj 2) = false -> displayItemFn (cfg world_fruits) = None ->
        g (VObj 2) world_picked = (Ret (VObj 2), world_picked)).
Proof.
  apply (@display_matches_filter fruit_env world_fruits world_picked (VObj 2)).
  reflexivity.
Defined.


Lemma searching_keeps_model_witness :
  let w := world_picked in
  currentModel (st (@run fruit_env w trace_search_only)) = currentModel (st w)
  /\ value (st (@run fruit_env w trace_search_only)) = value (st w)
  /\ emitted (@run fruit_env w trace_search_only) = emitted w.
Proof.
  apply (@searching_keeps_model fruit_env world_picked trace_search_only).
  repeat (apply Forall_cons; split; [reflexivity|]). apply Forall_nil_2.
Defined.

Lemma storedItems_kept_witness :
  storedItems (st (@step fruit_env world_two_fetches (EResolve 0 [VObj 3])))
  = storedItems (st world_two_fetches).
Proof.
  apply (@storedItems_kept fruit_env world_two_fetches (EResolve 0 [VObj 3])).
  vm_compute. reflexivity.
Defined.
